(** * Docker-Config-Extractor: package [containerconfig]

    A shallow embedding of [pkg/containerconfig] (spec.go, parser.go and the
    two generator.go variants) and the properties of its inspection parser
    and command generator.

    Go values are modelled as the code has them:
    - a [string] is a sequence of bytes ([String.string]);
    - a slice [[]T] is [option (list T)], [None] being the [nil] slice;
    - a [map[string]V] is [option (gmap string V)], [None] being the [nil]
      map; the order in which [range] visits a map is not fixed by the
      language and is supplied by a [MapOrder];
    - a pointer that may be [nil] is an [option];
    - the two results of a function returning a specification pointer and
      an [error] are a pair of options. *)

From stdpp Require Import base option list strings gmap fin_maps.
From Stdlib Require Import ZArith Ascii.

(** ** Go slices, maps and errors *)

Abbreviation slice A := (option (list A)) (only parsing).
Abbreviation gomap V := (option (gmap string V)) (only parsing).

Module Go.

(** The elements [range] visits and [len] counts; none for [nil]. *)
Definition elems {A} (s : slice A) : list A := default [] s.

Definition len {A} (s : slice A) : nat := length (elems s).

(** [append(s, x1, ..., xn)]: with no element to add the slice comes back
    as it is ([nil] stays [nil]); otherwise the result is allocated. *)
Definition append {A} (s : slice A) (xs : list A) : slice A :=
  match xs with
  | [] => s
  | _ :: _ => Some (elems s ++ xs)
  end.

(** The order of one [range] loop over a map: some enumeration of its
    entries, each exactly once. Two runs may use two different orders. *)
Class MapOrder := {
  map_range : ∀ {V : Type}, gmap string V → list (string * V);
  map_range_perm : ∀ {V : Type} (m : gmap string V),
    map_range m ≡ₚ map_to_list m
}.

(** [for k, v := range m]: no iteration over a [nil] map. *)
Definition range_map `{!MapOrder} {V} (m : gomap V) : list (string * V) :=
  match m with
  | None => []
  | Some g => map_range g
  end.

(** Values of the interface type [error] that reach this package:
    [errorString s] is [fmt.Errorf(s)] for a format without verbs,
    [wrapError prefix err] is [fmt.Errorf(prefix + "%w", err)], whose
    message is [prefix] followed by the message of [err] and which
    unwraps to [err]; [SyntaxError] and [UnmarshalTypeError] are the two
    error types of encoding/json ([Value] describes the JSON value that
    did not fit, as in Go: array, object, string, bool, number ...). *)
Inductive error :=
| errorString (s : string)
| wrapError (prefix : string) (err : error)
| SyntaxError
| UnmarshalTypeError (Value : string).

Definition Unwrap (e : error) : option error :=
  match e with
  | wrapError _ err => Some err
  | _ => None
  end.

End Go.

Export Go.

(** ** Package [strings] *)

Module Strings.

Fixpoint HasPrefix (s prefix : string) : bool :=
  match prefix, s with
  | EmptyString, _ => true
  | String p prefix', String c s' => if Ascii.eqb p c then HasPrefix s' prefix' else false
  | String _ _, EmptyString => false
  end.

Fixpoint drop (n : nat) (s : string) : string :=
  match n, s with
  | O, _ => s
  | S n', String _ s' => drop n' s'
  | S _, EmptyString => EmptyString
  end.

(** [strings.TrimPrefix]: [s] without the leading [prefix], or [s] itself
    when it does not start with it. *)
Definition TrimPrefix (s prefix : string) : string :=
  if HasPrefix s prefix then drop (String.length prefix) s else s.

(** [strings.Split(s, sep)] for a non-empty [sep]: [skip] counts the bytes
    of a separator just matched that are still to be passed over, [cur] is
    the piece being read. *)
Fixpoint split_from (sep : string) (skip : nat) (cur : string) (s : string) : list string :=
  match s with
  | EmptyString => [cur]
  | String c s' =>
      match skip with
      | S k => split_from sep k cur s'
      | O =>
          if HasPrefix s sep
          then cur :: split_from sep (String.length sep - 1) EmptyString s'
          else split_from sep O (cur +:+ String c EmptyString) s'
      end
  end.

Definition Split (s sep : string) : list string := split_from sep O EmptyString s.

(** [strings.Join(elems, sep)]. *)
Fixpoint Join (elems : list string) (sep : string) : string :=
  match elems with
  | [] => EmptyString
  | [x] => x
  | x :: rest => x +:+ sep +:+ Join rest sep
  end.

End Strings.

(** ** spec.go *)

Module ContainerSpec.
Record t := mk {
  Name : string;
  Image : string;
  Env : slice string;
  Volumes : slice string;
  Ports : slice string;
  Networks : slice string;
  Command : slice string;
  WorkingDir : string;
  Labels : gomap string;
  EntryPoint : slice string;
  Devices : slice string;
  ExtraHosts : slice string;
  Restart : string
}.

(** The zero value, and the assignments [spec.F = v] the package makes. *)
Definition zero : t := mk "" "" None None None None None "" None None None None "".

Definition set_Volumes (v : slice string) (s : t) : t :=
  mk (Name s) (Image s) (Env s) v (Ports s) (Networks s) (Command s)
     (WorkingDir s) (Labels s) (EntryPoint s) (Devices s) (ExtraHosts s) (Restart s).
Definition set_Ports (v : slice string) (s : t) : t :=
  mk (Name s) (Image s) (Env s) (Volumes s) v (Networks s) (Command s)
     (WorkingDir s) (Labels s) (EntryPoint s) (Devices s) (ExtraHosts s) (Restart s).
Definition set_Networks (v : slice string) (s : t) : t :=
  mk (Name s) (Image s) (Env s) (Volumes s) (Ports s) v (Command s)
     (WorkingDir s) (Labels s) (EntryPoint s) (Devices s) (ExtraHosts s) (Restart s).
Definition set_Devices (v : slice string) (s : t) : t :=
  mk (Name s) (Image s) (Env s) (Volumes s) (Ports s) (Networks s) (Command s)
     (WorkingDir s) (Labels s) (EntryPoint s) v (ExtraHosts s) (Restart s).
Definition set_ExtraHosts (v : slice string) (s : t) : t :=
  mk (Name s) (Image s) (Env s) (Volumes s) (Ports s) (Networks s) (Command s)
     (WorkingDir s) (Labels s) (EntryPoint s) (Devices s) v (Restart s).
Definition set_Restart (v : string) (s : t) : t :=
  mk (Name s) (Image s) (Env s) (Volumes s) (Ports s) (Networks s) (Command s)
     (WorkingDir s) (Labels s) (EntryPoint s) (Devices s) (ExtraHosts s) v.
End ContainerSpec.

Module RunOptions.
Record t := mk { Name : string }.
End RunOptions.

(** ** generator.go, the variant returning the argument slice *)

Module Generator.

(** [s != ""]. *)
Definition nonempty (s : string) : bool := negb (String.eqb s "").

Definition GenerateRunCommand `{!MapOrder}
    (spec : ContainerSpec.t) (opts : option RunOptions.t) : slice string :=
  let args : slice string := None in
  (* Add name *)
  let args :=
    if match opts with Some o => nonempty (RunOptions.Name o) | None => false end
    then append args ["--name"; from_option RunOptions.Name "" opts]
    else if nonempty (ContainerSpec.Name spec)
    then append args ["--name"; ContainerSpec.Name spec]
    else args in
  (* Add environment variables *)
  let args := foldl (λ args env, append args ["-e"; env]) args
                    (elems (ContainerSpec.Env spec)) in
  (* Add volumes *)
  let args := foldl (λ args vol, append args ["-v"; vol]) args
                    (elems (ContainerSpec.Volumes spec)) in
  (* Add ports *)
  let args := foldl (λ args port, append args ["-p"; port]) args
                    (elems (ContainerSpec.Ports spec)) in
  (* Add networks *)
  let args := foldl (λ args network, append args ["--network"; network]) args
                    (elems (ContainerSpec.Networks spec)) in
  (* Add working directory *)
  let args :=
    if nonempty (ContainerSpec.WorkingDir spec)
    then append args ["-w"; ContainerSpec.WorkingDir spec]
    else args in
  (* Add labels *)
  let args := foldl (λ args kv, append args ["-l"; kv.1 +:+ "=" +:+ kv.2]) args
                    (range_map (ContainerSpec.Labels spec)) in
  (* Add devices *)
  let args := foldl (λ args device, append args ["--device"; device]) args
                    (elems (ContainerSpec.Devices spec)) in
  (* Add extra hosts *)
  let args := foldl (λ args host, append args ["--add-host"; host]) args
                    (elems (ContainerSpec.ExtraHosts spec)) in
  (* Add restart policy *)
  let args :=
    if nonempty (ContainerSpec.Restart spec)
    then append args ["--restart"; ContainerSpec.Restart spec]
    else args in
  (* Add entrypoint *)
  let args :=
    match elems (ContainerSpec.EntryPoint spec) with
    | entry0 :: _ => append args ["--entrypoint"; entry0]
    | [] => args
    end in
  (* Add image *)
  let args := append args [ContainerSpec.Image spec] in
  (* Add command arguments *)
  let args :=
    if bool_decide (0 < len (ContainerSpec.Command spec))
    then append args (elems (ContainerSpec.Command spec))
    else args in
  args.

End Generator.

(** ** generator.go, the variant returning the command as one string *)

(** [fmt.Sprintf] with the verb [%q] on a string, that is [strconv.Quote]:
    the generator is defined over any such function. *)
Class Quoter := Quote : string → string.

Module GeneratorText.
Import Strings.

Definition nonempty (s : string) : bool := negb (String.eqb s "").

Definition GenerateRunCommand `{!MapOrder, !Quoter}
      (spec : ContainerSpec.t) (opts : option RunOptions.t) : string :=
  let parts : slice string := None in
  let parts := append parts ["docker run"] in
(* Add name *)
  let parts :=
    if match opts with Some o => nonempty (RunOptions.Name o) | None => false end
    then append parts ["--name " +:+ from_option RunOptions.Name "" opts]
    else if nonempty (ContainerSpec.Name spec)
    then append parts ["--name " +:+ ContainerSpec.Name spec]
    else parts in
(* Add environment variables *)
  let parts := foldl (λ parts env, append parts ["-e " +:+ Quote env]) parts
                     (elems (ContainerSpec.Env spec)) in
(* Add volumes *)
  let parts := foldl (λ parts vol, append parts ["-v " +:+ vol]) parts
                     (elems (ContainerSpec.Volumes spec)) in
(* Add ports *)
  let parts := foldl (λ parts port, append parts ["-p " +:+ port]) parts
                     (elems (ContainerSpec.Ports spec)) in
(* Add networks *)
  let parts := foldl (λ parts network, append parts ["--network " +:+ network]) parts
                     (elems (ContainerSpec.Networks spec)) in
(* Add working directory *)
  let parts :=
    if nonempty (ContainerSpec.WorkingDir spec)
    then append parts ["-w " +:+ ContainerSpec.WorkingDir spec]
    else parts in
(* Add labels *)
  let parts := foldl (λ parts kv, append parts ["-l " +:+ kv.1 +:+ "=" +:+ Quote kv.2]) parts
                     (range_map (ContainerSpec.Labels spec)) in
(* Add devices *)
  let parts := foldl (λ parts device, append parts ["--device " +:+ device]) parts
                     (elems (ContainerSpec.Devices spec)) in
(* Add extra hosts *)
  let parts := foldl (λ parts host, append parts ["--add-host " +:+ host]) parts
                     (elems (ContainerSpec.ExtraHosts spec)) in
(* Add restart policy *)
  let parts :=
    if nonempty (ContainerSpec.Restart spec)
    then append parts ["--restart " +:+ ContainerSpec.Restart spec]
    else parts in
(* Add entrypoint *)
  let parts :=
    match elems (ContainerSpec.EntryPoint spec) with
    | entry0 :: _ => append parts ["--entrypoint " +:+ entry0]
    | [] => parts
    end in
(* Add image *)
  let parts := append parts [ContainerSpec.Image spec] in
(* Add command *)
  let parts :=
    if bool_decide (0 < len (ContainerSpec.Command spec))
    then append parts [Join (elems (ContainerSpec.Command spec)) " "]
    else parts in
  Join (elems parts) " ".

End GeneratorText.

(** ** parser.go *)

(** The values encoding/json stores in an [interface{}]: the JSON value
    itself ([nil], [bool], [float64] kept as its literal, [string],
    [[]interface{}] and [map[string]interface{}] with its members in
    document order). *)
Module Json.
#[warnings="-register-all"] Inductive value :=
| Null
| Bool (b : bool)
| Number (literal : string)
| Str (s : string)
| Array (vs : list value)
| Object (members : list (string * value)).
End Json.

(** [InspectData] and its anonymous struct types, one module each. *)
Module Config.
Record t := mk {
  Image : string;
  Env : slice string;
  Cmd : slice string;
  Entrypoint : slice string;
  Labels : gomap string;
  WorkingDir : string
}.
Definition zero : t := mk "" None None None None "".
End Config.

Module Mount.
Record t := mk {
  Type_ : string;
  Source : string;
  Destination : string;
  Mode : string;
  RW : bool
}.
Definition zero : t := mk "" "" "" "" false.
End Mount.

Module PortBinding.
Record t := mk { HostIP : string; HostPort : string }.
Definition zero : t := mk "" "".
End PortBinding.

Module NetworkSettings.
Record t := mk {
  Networks : gomap Json.value;
  Ports : gomap (slice PortBinding.t)
}.
Definition zero : t := mk None None.
End NetworkSettings.

Module Device.
Record t := mk {
  PathOnHost : string;
  PathInContainer : string;
  CgroupPermissions : string
}.
Definition zero : t := mk "" "" "".
End Device.

Module RestartPolicy.
Record t := mk { Name : string; MaximumRetryCount : Z }.
Definition zero : t := mk "" 0%Z.
End RestartPolicy.

Module HostConfig.
Record t := mk {
  Devices : slice Device.t;
  RestartPolicy : RestartPolicy.t;
  ExtraHosts : slice string
}.
Definition zero : t := mk None RestartPolicy.zero None.
End HostConfig.

Module InspectData.
Record t := mk {
  Name : string;
  Config : Config.t;
  Mounts : slice Mount.t;
  NetworkSettings : NetworkSettings.t;
  HostConfig : HostConfig.t
}.
Definition zero : t := mk "" Config.zero None NetworkSettings.zero HostConfig.zero.
End InspectData.

(** [json.Unmarshal([]byte(jsonData), &inspectArray)] on the fresh [nil]
    [inspectArray]: the slice it leaves and the error it returns. The parser
    is defined over any such function; [JsonModel.Unmarshal] below is a
    model of the library to run it on concrete documents. *)
Class Unmarshaler := Unmarshal : string → slice InspectData.t * option error.

Module Parser.
Import Strings.

Definition nonempty (s : string) : bool := negb (String.eqb s "").

Definition ParseInspectJSON `{!Unmarshaler, !MapOrder}
    (jsonData : string) : option ContainerSpec.t * option error :=
  let '(inspectArray, err) := Unmarshal jsonData in
  match err with
  | Some err => (None, Some (wrapError "failed to parse JSON: " err))
  | None =>
  match elems inspectArray with
  | [] => (None, Some (errorString "empty inspect data"))
  | data :: _ =>
    let spec :=
      ContainerSpec.mk
        (TrimPrefix (InspectData.Name data) "/")              (* Name *)
        (Config.Image (InspectData.Config data))              (* Image *)
        (Config.Env (InspectData.Config data))                (* Env *)
        None None None
        (Config.Cmd (InspectData.Config data))                (* Command *)
        (Config.WorkingDir (InspectData.Config data))         (* WorkingDir *)
        (Config.Labels (InspectData.Config data))             (* Labels *)
        (Config.Entrypoint (InspectData.Config data))         (* EntryPoint *)
        None None "" in
    (* Parse volumes from mounts *)
    let spec :=
      foldl (λ spec mount,
        let volumeStr := "" in
        let volumeStr :=
          if String.eqb (Mount.Type_ mount) "bind"
          then Mount.Source mount +:+ ":" +:+ Mount.Destination mount
          else if String.eqb (Mount.Type_ mount) "volume"
          then Mount.Source mount +:+ ":" +:+ Mount.Destination mount
          else volumeStr in
        if nonempty volumeStr then
          let volumeStr :=
            if negb (Mount.RW mount) then volumeStr +:+ ":ro" else volumeStr in
          ContainerSpec.set_Volumes
            (append (ContainerSpec.Volumes spec) [volumeStr]) spec
        else spec)
        spec (elems (InspectData.Mounts data)) in
    (* Parse ports *)
    let spec :=
      foldl (λ spec '(containerPort, bindings),
        if bool_decide (0 < len bindings) then
          foldl (λ spec binding,
            if nonempty (PortBinding.HostPort binding) then
              let portStr :=
                PortBinding.HostPort binding +:+ ":" +:+
                default "" (head (Split containerPort "/")) in
              ContainerSpec.set_Ports
                (append (ContainerSpec.Ports spec) [portStr]) spec
            else spec)
            spec (elems bindings)
        else spec)
        spec (range_map (NetworkSettings.Ports (InspectData.NetworkSettings data))) in
    (* Parse networks *)
    let spec :=
      foldl (λ spec '(networkName, _),
        ContainerSpec.set_Networks
          (append (ContainerSpec.Networks spec) [networkName]) spec)
        spec (range_map (NetworkSettings.Networks (InspectData.NetworkSettings data))) in
    (* Parse devices *)
    let spec :=
      foldl (λ spec device,
        let deviceStr :=
          Device.PathOnHost device +:+ ":" +:+ Device.PathInContainer device in
        ContainerSpec.set_Devices
          (append (ContainerSpec.Devices spec) [deviceStr]) spec)
        spec (elems (HostConfig.Devices (InspectData.HostConfig data))) in
    (* Parse restart policy *)
    let spec :=
      let name := RestartPolicy.Name (HostConfig.RestartPolicy (InspectData.HostConfig data)) in
      if nonempty name && negb (String.eqb name "no")
      then ContainerSpec.set_Restart name spec
      else spec in
    (* Parse extra hosts *)
    let spec :=
      ContainerSpec.set_ExtraHosts
        (HostConfig.ExtraHosts (InspectData.HostConfig data)) spec in
    (Some spec, None)
  end
  end.

End Parser.

(** ** A model of encoding/json

    [JsonModel.Unmarshal] models [json.Unmarshal] at the type
    [[]InspectData]: the text is first checked and read as a JSON value
    ([scan], the grammar of RFC 8259 with Go's nesting limit), then the
    value is stored into the Go type ([decode]). It gives the functions of
    the package something to run on; the theorems about the parser hold for
    every [Unmarshaler]. *)
Module JsonModel.
Import Json.

Definition code (c : ascii) : N := N_of_ascii c.
Definition dquote : ascii := ascii_of_N 34.
Definition is_in (c : ascii) (s : string) : bool :=
  existsb (Ascii.eqb c) (String.list_ascii_of_string s).
Definition is_space (c : ascii) : bool := is_in c " " || (code c =? 9)%N || (code c =? 10)%N || (code c =? 13)%N.
Definition is_digit (c : ascii) : bool := (48 <=? code c)%N && (code c <=? 57)%N.
Definition is_lower (c : ascii) : bool := (97 <=? code c)%N && (code c <=? 122)%N.
Definition is_upper (c : ascii) : bool := (65 <=? code c)%N && (code c <=? 90)%N.
(** The bytes a literal or a number is written with. *)
Definition is_word (c : ascii) : bool :=
  is_digit c || is_lower c || is_upper c || is_in c "+-.".

(** *** Numbers *)

Inductive num_state := NStart | NNeg | NZero | NInt | NDot | NFrac | NE | NESign | NExp.

Definition num_step (st : num_state) (c : ascii) : option num_state :=
  match st with
  | NStart => if is_in c "-" then Some NNeg else if is_in c "0" then Some NZero
              else if is_digit c then Some NInt else None
  | NNeg => if is_in c "0" then Some NZero else if is_digit c then Some NInt else None
  | NZero => if is_in c "." then Some NDot else if is_in c "eE" then Some NE else None
  | NInt => if is_digit c then Some NInt else if is_in c "." then Some NDot
            else if is_in c "eE" then Some NE else None
  | NDot => if is_digit c then Some NFrac else None
  | NFrac => if is_digit c then Some NFrac else if is_in c "eE" then Some NE else None
  | NE => if is_in c "+-" then Some NESign else if is_digit c then Some NExp else None
  | NESign => if is_digit c then Some NExp else None
  | NExp => if is_digit c then Some NExp else None
  end.

Fixpoint num_run (st : num_state) (s : string) : option num_state :=
  match s with
  | EmptyString => Some st
  | String c s' => match num_step st c with Some st' => num_run st' s' | None => None end
  end.

Definition valid_number (s : string) : bool :=
  match num_run NStart s with
  | Some (NZero | NInt | NFrac | NExp) => true
  | _ => false
  end.

(** The leading bytes of [s] that satisfy [p], and the rest. *)
Fixpoint span (p : ascii → bool) (s : string) : string * string :=
  match s with
  | EmptyString => (EmptyString, EmptyString)
  | String c s' =>
      if p c then let '(a, b) := span p s' in (String c a, b) else (EmptyString, s)
  end.

Definition digits_to_Z (s : string) : Z :=
  foldl (λ n c, n * 10 + Z.of_N (code c - 48))%Z 0%Z (String.list_ascii_of_string s).

(** Sign, integer digits, fraction digits and exponent of a valid number. *)
Definition number_parts (lit : string) : bool * string * string * Z :=
  let '(neg, s) := match lit with
                   | String c s' => if is_in c "-" then (true, s') else (false, lit)
                   | EmptyString => (false, lit)
                   end in
  let '(ip, s) := span is_digit s in
  let '(fp, s) := match s with
                  | String c s' => if is_in c "." then span is_digit s' else (EmptyString, s)
                  | EmptyString => (EmptyString, s)
                  end in
  let e := match s with
           | String _ (String c s' as s1) =>
               if is_in c "-" then (- digits_to_Z s')%Z
               else if is_in c "+" then digits_to_Z s' else digits_to_Z s1
           | _ => 0%Z
           end in
  (neg, ip, fp, e).

(** [strconv.ParseInt(lit, 10, 64)] on a valid JSON number: an integer
    literal within the range of [int64]. *)
Definition parse_int (lit : string) : option Z :=
  let '(neg, ip, fp, _) := number_parts lit in
  if String.eqb lit ((if neg then "-" else "") +:+ ip) then
    let n := if neg then (- digits_to_Z ip)%Z else digits_to_Z ip in
    if ((- 2 ^ 63 <=? n) && (n <? 2 ^ 63))%Z then Some n else None
  else None.

(** [strconv.ParseFloat(lit, 64)] reports a range error: the number
    rounds to an infinity, that is, its magnitude is at least
    2^1024 - 2^970. *)
Definition overflows_float64 (lit : string) : bool :=
  let '(_, ip, fp, e) := number_parts lit in
  let d := digits_to_Z (ip +:+ fp) in
  let n := Z.of_nat (String.length (ip +:+ fp)) in
  let k := (e - Z.of_nat (String.length fp))%Z in
  let bound := (2 ^ 1024 - 2 ^ 970)%Z in
  if (d =? 0)%Z then false
  else if (n + k <=? 308)%Z then false
  else if (309 <? k)%Z then true
  else if (0 <=? k)%Z then (bound <=? d * 10 ^ k)%Z
  else (bound * 10 ^ (- k) <=? d)%Z.

(** *** Strings *)

(** What a string literal is made of: a byte written as it is (or by a
    one-letter escape), or a [\u] escape with its 16-bit value. *)
Inductive item := Raw (c : ascii) | U16 (n : N).

Definition byte (n : N) : ascii := ascii_of_N n.

(** [utf8.EncodeRune]. *)
Definition encode_rune (r : N) : string :=
  if (r <? 128)%N then String (byte r) ""
  else if (r <? 2048)%N then
    String (byte (192 + r / 64)) (String (byte (128 + r mod 64)) "")
  else if (r <? 65536)%N then
    String (byte (224 + r / 4096))
      (String (byte (128 + (r / 64) mod 64)) (String (byte (128 + r mod 64)) ""))
  else
    String (byte (240 + r / 262144))
      (String (byte (128 + (r / 4096) mod 64))
         (String (byte (128 + (r / 64) mod 64)) (String (byte (128 + r mod 64)) ""))).

Definition replacement : string := encode_rune 65533.

Definition raw_code (i : item) : option N :=
  match i with Raw c => Some (code c) | U16 _ => None end.

Definition in_range (lo hi : N) (o : option N) : bool :=
  match o with Some n => (lo <=? n)%N && (n <=? hi)%N | None => false end.

(** The length of the UTF-8 sequence that starts with byte [b] followed
    by [rest], or 0 when there is no valid one ([utf8.DecodeRune]). *)
Definition utf8_len (b : N) (rest : list item) : nat :=
  let c1 := rest !! 0%nat ≫= raw_code in
  let c2 := rest !! 1%nat ≫= raw_code in
  let c3 := rest !! 2%nat ≫= raw_code in
  let cont := in_range 128 191 in
  if (b <? 128)%N then 1
  else if in_range 194 223 (Some b) then if cont c1 then 2 else 0
  else if (b =? 224)%N then if in_range 160 191 c1 && cont c2 then 3 else 0
  else if (b =? 237)%N then if in_range 128 159 c1 && cont c2 then 3 else 0
  else if in_range 225 239 (Some b) then if cont c1 && cont c2 then 3 else 0
  else if (b =? 240)%N then if in_range 144 191 c1 && cont c2 && cont c3 then 4 else 0
  else if (b =? 244)%N then if in_range 128 143 c1 && cont c2 && cont c3 then 4 else 0
  else if in_range 241 243 (Some b) then if cont c1 && cont c2 && cont c3 then 4 else 0
  else 0.

(** The string a literal denotes: escapes decoded, surrogate pairs
    combined, a lone surrogate or a byte outside a valid UTF-8 sequence
    replaced by U+FFFD. [pending] counts the continuation bytes of a
    sequence already checked. *)
Fixpoint unquote (pending : nat) (items : list item) : string :=
  match items with
  | [] => ""
  | Raw c :: rest =>
      match pending with
      | S k => String c (unquote k rest)
      | O =>
          match utf8_len (code c) rest with
          | O => replacement +:+ unquote O rest
          | S k => String c (unquote k rest)
          end
      end
  | U16 hi :: rest =>
      if (hi <? 55296)%N || (57344 <=? hi)%N then encode_rune hi +:+ unquote O rest
      else
        match rest with
        | U16 lo :: rest' =>
            if (hi <? 56320)%N && (56320 <=? lo)%N && (lo <? 57344)%N
            then encode_rune (65536 + (hi - 55296) * 1024 + (lo - 56320)) +:+ unquote O rest'
            else replacement +:+ unquote O rest
        | _ => replacement +:+ unquote O rest
        end
  end.

Definition hex_value (c : ascii) : option N :=
  if is_digit c then Some (code c - 48)%N
  else if is_in c "abcdef" then Some (code c - 87)%N
  else if is_in c "ABCDEF" then Some (code c - 55)%N
  else None.

Definition escape (c : ascii) : option ascii :=
  if Ascii.eqb c dquote || (code c =? 92)%N || is_in c "/" then Some c
  else if is_in c "b" then Some (byte 8)
  else if is_in c "f" then Some (byte 12)
  else if is_in c "n" then Some (byte 10)
  else if is_in c "r" then Some (byte 13)
  else if is_in c "t" then Some (byte 9)
  else None.


(** *** The scanner *)

Inductive token :=
  | TLBracket | TRBracket | TLBrace | TRBrace | TColon | TComma
  | TScalar (v : value).

(** Where the reader is: between tokens, inside a literal or number,
    inside a string, after a backslash, or inside the four hexadecimal
    digits of a [\u] escape. *)
Inductive mode :=
  | MDefault
  | MWord (w : string)
  | MString (acc : list item)
  | MEscape (acc : list item)
  | MHex (acc : list item) (n : N) (count : nat).

Definition word_token (w : string) : option token :=
  if String.eqb w "null" then Some (TScalar Null)
  else if String.eqb w "true" then Some (TScalar (Bool true))
  else if String.eqb w "false" then Some (TScalar (Bool false))
  else if valid_number w then Some (TScalar (Number w))
  else None.

Definition default_step (c : ascii) : option (list token * mode) :=
  if is_space c then Some ([], MDefault)
  else if is_in c "[" then Some ([TLBracket], MDefault)
  else if is_in c "]" then Some ([TRBracket], MDefault)
  else if is_in c "{" then Some ([TLBrace], MDefault)
  else if is_in c "}" then Some ([TRBrace], MDefault)
  else if is_in c ":" then Some ([TColon], MDefault)
  else if is_in c "," then Some ([TComma], MDefault)
  else if Ascii.eqb c dquote then Some ([], MString [])
  else if is_word c then Some ([], MWord (String c ""))
  else None.

Definition lex_step (m : mode) (c : ascii) : option (list token * mode) :=
  match m with
  | MDefault => default_step c
  | MWord w =>
      if is_word c then Some ([], MWord (w +:+ String c ""))
      else
        tok ← word_token w;
        '(toks, m') ← default_step c;
        Some (tok :: toks, m')
  | MString acc =>
      if Ascii.eqb c dquote then Some ([TScalar (Str (unquote 0 (rev acc)))], MDefault)
      else if (code c =? 92)%N then Some ([], MEscape acc)
      else if (code c <? 32)%N then None
      else Some ([], MString (Raw c :: acc))
  | MEscape acc =>
      if is_in c "u" then Some ([], MHex acc 0 0)
      else r ← escape c; Some ([], MString (Raw r :: acc))
  | MHex acc n count =>
      h ← hex_value c;
      if (count =? 3)%nat then Some ([], MString (U16 (n * 16 + h) :: acc))
      else Some ([], MHex acc (n * 16 + h) (S count))
  end.

Fixpoint lex (m : mode) (s : string) : option (list token) :=
  match s with
  | EmptyString =>
      match m with
      | MDefault => Some []
      | MWord w => tok ← word_token w; Some [tok]
      | _ => None
      end
  | String c s' =>
      '(toks, m') ← lex_step m c;
      rest ← lex m' s';
      Some (toks ++ rest)
  end.

(** An array or object being read: what it holds so far (last first), and
    for an object the member name whose value is awaited. *)
Inductive frame :=
  | FArray (acc : list value)
  | FObject (acc : list (string * value)) (key : option string).

(** What may come next: a value ([first]: or the bracket closing an empty
    array), a member name ([first]: or the brace closing an empty object),
    a colon, a comma or closing bracket, or nothing after the top-level
    value. *)
Inductive phase :=
  | PValue (first : bool)
  | PKey (first : bool)
  | PColon
  | PNext
  | PEnd (v : value).

Definition maxNestingDepth : N := 10000.

Definition close_value (v : value) (stack : list frame) : option (list frame * phase) :=
  match stack with
  | [] => Some ([], PEnd v)
  | FArray acc :: st => Some (FArray (v :: acc) :: st, PNext)
  | FObject acc (Some k) :: st => Some (FObject ((k, v) :: acc) None :: st, PNext)
  | FObject _ None :: _ => None
  end.

Definition push (f : frame) (ph : phase) (stack : list frame) : option (list frame * phase) :=
  if (N.of_nat (length stack) <? maxNestingDepth)%N then Some (f :: stack, ph) else None.

Definition close_array (stack : list frame) : option (list frame * phase) :=
  match stack with
  | FArray acc :: st => close_value (Array (rev acc)) st
  | _ => None
  end.

Definition close_object (stack : list frame) : option (list frame * phase) :=
  match stack with
  | FObject acc None :: st => close_value (Object (rev acc)) st
  | _ => None
  end.

Definition parse_step (s : list frame * phase) (t : token) : option (list frame * phase) :=
  let '(stack, ph) := s in
  match ph, t with
  | PValue _, TScalar v => close_value v stack
  | PValue _, TLBracket => push (FArray []) (PValue true) stack
  | PValue _, TLBrace => push (FObject [] None) (PKey true) stack
  | PValue true, TRBracket => close_array stack
  | PKey _, TScalar (Str k) =>
      match stack with
      | FObject acc None :: st => Some (FObject acc (Some k) :: st, PColon)
      | _ => None
      end
  | PKey true, TRBrace => close_object stack
  | PColon, TColon => Some (stack, PValue false)
  | PNext, TComma =>
      match stack with
      | FArray _ :: _ => Some (stack, PValue false)
      | FObject _ _ :: _ => Some (stack, PKey false)
      | [] => None
      end
  | PNext, TRBracket => close_array stack
  | PNext, TRBrace => close_object stack
  | _, _ => None
  end.

(** The JSON value a text denotes; [None] for a text that is not valid
    JSON (Go's [checkValid] fails with a [*SyntaxError]). *)
Definition scan (data : string) : option value :=
  toks ← lex MDefault data;
  s ← foldl (λ st t, st ≫= λ s, parse_step s t) (Some ([], PValue false)) toks;
  match s.2 with
  | PEnd v => Some v
  | _ => None
  end.


(** *** Storing a value into a Go type

    [decode v cur] stores the JSON value [v] into a variable holding [cur]
    and gives its new contents with the first error met. As in Go, a value
    that does not fit leaves the variable as it is, is recorded as an
    [UnmarshalTypeError], and decoding goes on; [null] sets a slice, map or
    interface to [nil] and leaves anything else alone; array elements and
    map values are decoded into zero values. (A member name that occurs
    twice in one object is decoded twice into the same field; Go then
    re-uses the elements of the first array where this model starts from
    zero values.) *)

Class Decode (T : Type) := decode : value → T → T * option error.
Class Zero (T : Type) := zero_value : T.

Definition first_error (e1 e2 : option error) : option error :=
  match e1 with
  | Some _ => e1
  | None => e2
  end.

Definition kind (v : value) : string :=
  match v with
  | Null => "null"
  | Bool _ => "bool"
  | Number _ => "number"
  | Str _ => "string"
  | Array _ => "array"
  | Object _ => "object"
  end.

Definition mismatch {T} (v : value) (cur : T) : T * option error :=
  (cur, Some (UnmarshalTypeError (kind v))).

#[export] Instance string_Zero : Zero string := "".
#[export] Instance bool_Zero : Zero bool := false.
#[export] Instance int_Zero : Zero Z := 0%Z.
#[export] Instance slice_Zero {T} : Zero (slice T) := None.
#[export] Instance map_Zero {V} : Zero (gomap V) := None.
#[export] Instance interface_Zero : Zero value := Null.

#[export] Instance string_Decode : Decode string := λ v cur,
  match v with
  | Null => (cur, None)
  | Str s => (s, None)
  | _ => mismatch v cur
  end.

#[export] Instance bool_Decode : Decode bool := λ v cur,
  match v with
  | Null => (cur, None)
  | Bool b => (b, None)
  | _ => mismatch v cur
  end.

#[export] Instance int_Decode : Decode Z := λ v cur,
  match v with
  | Null => (cur, None)
  | Number lit =>
      match parse_int lit with
      | Some n => (n, None)
      | None => (cur, Some (UnmarshalTypeError ("number " +:+ lit)))
      end
  | _ => mismatch v cur
  end.

(** Into an [interface{}]: the value itself; a number outside the range of
    [float64] is an error and leaves [nil] in its place. *)
Fixpoint to_interface (v : value) : value * option error :=
  match v with
  | Number lit =>
      if overflows_float64 lit
      then (Null, Some (UnmarshalTypeError ("number " +:+ lit)))
      else (v, None)
  | Array vs =>
      let r := (fix go (vs : list value) : list value * option error :=
                  match vs with
                  | [] => ([], None)
                  | x :: vs' =>
                      let '(x', e) := to_interface x in
                      let '(r, e') := go vs' in
                      (x' :: r, first_error e e')
                  end) vs in
      (Array r.1, r.2)
  | Object ms =>
      let r := (fix go (ms : list (string * value)) : list (string * value) * option error :=
                  match ms with
                  | [] => ([], None)
                  | (k, x) :: ms' =>
                      let '(x', e) := to_interface x in
                      let '(r, e') := go ms' in
                      ((k, x') :: r, first_error e e')
                  end) ms in
      (Object r.1, r.2)
  | _ => (v, None)
  end.

#[export] Instance interface_Decode : Decode value := λ v _, to_interface v.

Fixpoint decode_elems `{!Decode T, !Zero T} (vs : list value) : list T * option error :=
  match vs with
  | [] => ([], None)
  | v :: vs' =>
      let '(x, e) := decode v zero_value in
      let '(xs, e') := decode_elems vs' in
      (x :: xs, first_error e e')
  end.

#[export] Instance slice_Decode `{!Decode T, !Zero T} : Decode (slice T) := λ v cur,
  match v with
  | Null => (None, None)
  | Array vs => let '(xs, e) := decode_elems vs in (Some xs, e)
  | _ => mismatch v cur
  end.

#[export] Instance map_Decode `{!Decode V, !Zero V} : Decode (gomap V) := λ v cur,
  match v with
  | Null => (None, None)
  | Object ms =>
      let '(m, e) :=
        foldl (λ '(m, e) '(k, x),
                 let '(y, e') := decode x zero_value in
                 (<[k := y]> m, first_error e e'))
              (default ∅ cur, None) ms in
      (Some m, e)
  | _ => mismatch v cur
  end.

(** Member names are matched with field names exactly or, failing that,
    under Go's case folding: ASCII letters in upper case, and the two
    letters outside ASCII that fold to one, U+017F to S and U+212A to K. *)
Fixpoint fold_name (s : string) : string :=
  match s with
  | EmptyString => EmptyString
  | String c s' =>
      if is_lower c then String (byte (code c - 32)) (fold_name s')
      else
        match s' with
        | String c2 s2 =>
            if (code c =? 197)%N && (code c2 =? 191)%N then String "S" (fold_name s2)
            else
              match s2 with
              | String c3 s3 =>
                  if (code c =? 226)%N && (code c2 =? 132)%N && (code c3 =? 170)%N
                  then String "K" (fold_name s3)
                  else String c (fold_name s')
              | EmptyString => String c (fold_name s')
              end
        | EmptyString => String c EmptyString
        end
  end.

(** A field of a struct [T]: its JSON name and how a value is stored in it. *)
Definition field (T : Type) : Type := string * (value → T → T * option error).

Definition fld {T A} `{!Decode A} (name : string) (get : T → A) (set : A → T → T) : field T :=
  (name, λ v t, let '(x, e) := decode v (get t) in (set x t, e)).

Definition find_field {T} (fields : list (field T)) (key : string)
    : option (value → T → T * option error) :=
  match find (λ f : field T, String.eqb f.1 key) fields with
  | Some f => Some f.2
  | None =>
      match find (λ f : field T, String.eqb (fold_name f.1) (fold_name key)) fields with
      | Some f => Some f.2
      | None => None
      end
  end.

Definition decode_struct {T} (fields : list (field T)) : Decode T := λ v cur,
  match v with
  | Null => (cur, None)
  | Object ms =>
      foldl (λ '(t, e) '(k, x),
               match find_field fields k with
               | Some store => let '(t', e') := store x t in (t', first_error e e')
               | None => (t, e)
               end)
            (cur, None) ms
  | _ => mismatch v cur
  end.


(** *** The fields of [InspectData], by their JSON names *)

#[export] Instance Mount_Zero : Zero Mount.t := Mount.zero.
#[export] Instance Mount_Decode : Decode Mount.t :=
  decode_struct
    [ fld "Type" Mount.Type_
        (λ x m, Mount.mk x (Mount.Source m) (Mount.Destination m) (Mount.Mode m) (Mount.RW m));
      fld "Source" Mount.Source
        (λ x m, Mount.mk (Mount.Type_ m) x (Mount.Destination m) (Mount.Mode m) (Mount.RW m));
      fld "Destination" Mount.Destination
        (λ x m, Mount.mk (Mount.Type_ m) (Mount.Source m) x (Mount.Mode m) (Mount.RW m));
      fld "Mode" Mount.Mode
        (λ x m, Mount.mk (Mount.Type_ m) (Mount.Source m) (Mount.Destination m) x (Mount.RW m));
      fld "RW" Mount.RW
        (λ x m, Mount.mk (Mount.Type_ m) (Mount.Source m) (Mount.Destination m) (Mount.Mode m) x) ].

#[export] Instance PortBinding_Zero : Zero PortBinding.t := PortBinding.zero.
#[export] Instance PortBinding_Decode : Decode PortBinding.t :=
  decode_struct
    [ fld "HostIp" PortBinding.HostIP (λ x b, PortBinding.mk x (PortBinding.HostPort b));
      fld "HostPort" PortBinding.HostPort (λ x b, PortBinding.mk (PortBinding.HostIP b) x) ].

#[export] Instance Device_Zero : Zero Device.t := Device.zero.
#[export] Instance Device_Decode : Decode Device.t :=
  decode_struct
    [ fld "PathOnHost" Device.PathOnHost
        (λ x d, Device.mk x (Device.PathInContainer d) (Device.CgroupPermissions d));
      fld "PathInContainer" Device.PathInContainer
        (λ x d, Device.mk (Device.PathOnHost d) x (Device.CgroupPermissions d));
      fld "CgroupPermissions" Device.CgroupPermissions
        (λ x d, Device.mk (Device.PathOnHost d) (Device.PathInContainer d) x) ].

#[export] Instance RestartPolicy_Decode : Decode RestartPolicy.t :=
  decode_struct
    [ fld "Name" RestartPolicy.Name
        (λ x r, RestartPolicy.mk x (RestartPolicy.MaximumRetryCount r));
      fld "MaximumRetryCount" RestartPolicy.MaximumRetryCount
        (λ x r, RestartPolicy.mk (RestartPolicy.Name r) x) ].

#[export] Instance Config_Decode : Decode Config.t :=
  decode_struct
    [ fld "Image" Config.Image
        (λ x c, Config.mk x (Config.Env c) (Config.Cmd c) (Config.Entrypoint c)
                  (Config.Labels c) (Config.WorkingDir c));
      fld "Env" Config.Env
        (λ x c, Config.mk (Config.Image c) x (Config.Cmd c) (Config.Entrypoint c)
                  (Config.Labels c) (Config.WorkingDir c));
      fld "Cmd" Config.Cmd
        (λ x c, Config.mk (Config.Image c) (Config.Env c) x (Config.Entrypoint c)
                  (Config.Labels c) (Config.WorkingDir c));
      fld "Entrypoint" Config.Entrypoint
        (λ x c, Config.mk (Config.Image c) (Config.Env c) (Config.Cmd c) x
                  (Config.Labels c) (Config.WorkingDir c));
      fld "Labels" Config.Labels
        (λ x c, Config.mk (Config.Image c) (Config.Env c) (Config.Cmd c) (Config.Entrypoint c)
                  x (Config.WorkingDir c));
      fld "WorkingDir" Config.WorkingDir
        (λ x c, Config.mk (Config.Image c) (Config.Env c) (Config.Cmd c) (Config.Entrypoint c)
                  (Config.Labels c) x) ].

#[export] Instance NetworkSettings_Decode : Decode NetworkSettings.t :=
  decode_struct
    [ fld "Networks" NetworkSettings.Networks
        (λ x n, NetworkSettings.mk x (NetworkSettings.Ports n));
      fld "Ports" NetworkSettings.Ports
        (λ x n, NetworkSettings.mk (NetworkSettings.Networks n) x) ].

#[export] Instance HostConfig_Decode : Decode HostConfig.t :=
  decode_struct
    [ fld "Devices" HostConfig.Devices
        (λ x h, HostConfig.mk x (HostConfig.RestartPolicy h) (HostConfig.ExtraHosts h));
      fld "RestartPolicy" HostConfig.RestartPolicy
        (λ x h, HostConfig.mk (HostConfig.Devices h) x (HostConfig.ExtraHosts h));
      fld "ExtraHosts" HostConfig.ExtraHosts
        (λ x h, HostConfig.mk (HostConfig.Devices h) (HostConfig.RestartPolicy h) x) ].

#[export] Instance InspectData_Zero : Zero InspectData.t := InspectData.zero.
#[export] Instance InspectData_Decode : Decode InspectData.t :=
  decode_struct
    [ fld "Name" InspectData.Name
        (λ x d, InspectData.mk x (InspectData.Config d) (InspectData.Mounts d)
                  (InspectData.NetworkSettings d) (InspectData.HostConfig d));
      fld "Config" InspectData.Config
        (λ x d, InspectData.mk (InspectData.Name d) x (InspectData.Mounts d)
                  (InspectData.NetworkSettings d) (InspectData.HostConfig d));
      fld "Mounts" InspectData.Mounts
        (λ x d, InspectData.mk (InspectData.Name d) (InspectData.Config d) x
                  (InspectData.NetworkSettings d) (InspectData.HostConfig d));
      fld "NetworkSettings" InspectData.NetworkSettings
        (λ x d, InspectData.mk (InspectData.Name d) (InspectData.Config d) (InspectData.Mounts d)
                  x (InspectData.HostConfig d));
      fld "HostConfig" InspectData.HostConfig
        (λ x d, InspectData.mk (InspectData.Name d) (InspectData.Config d) (InspectData.Mounts d)
                  (InspectData.NetworkSettings d) x) ].

(** [json.Unmarshal(data, &inspectArray)] with [inspectArray] the [nil]
    slice: a syntax error leaves it untouched. *)
Definition Unmarshal (data : string) : slice InspectData.t * option error :=
  match scan data with
  | None => (None, Some SyntaxError)
  | Some v => decode v (None : slice InspectData.t)
  end.

(** The text [s] with each apostrophe replaced by a double quote: the way
    texts that hold double quotes are written here. *)
Definition double_quoted (s : string) : string :=
  String.string_of_list_ascii
    (map (λ c, if is_in c "'" then dquote else c) (String.list_ascii_of_string s)).

End JsonModel.

(** ** Running the package

    One admissible [MapOrder], the enumeration of a map in the order of
    [map_to_list], and a model of [strconv.Quote]; with
    [JsonModel.Unmarshal] they let the functions run on concrete inputs. *)

Definition canonical_order : MapOrder :=
  {| map_range := λ V m, map_to_list m;
     map_range_perm := λ V m, reflexivity _ |}.

Definition model_Unmarshaler : Unmarshaler := JsonModel.Unmarshal.

Module QuoteModel.
Import JsonModel.

Definition hex_digit (n : N) : ascii :=
  if (n <? 10)%N then byte (48 + n) else byte (87 + n).

Definition backslash : ascii := byte 92.

(** One byte of the operand inside the quotes. *)
Definition quote_byte (c : ascii) : string :=
  if Ascii.eqb c dquote || Ascii.eqb c backslash then String backslash (String c "")
  else if (code c =? 7)%N then String backslash "a"
  else if (code c =? 8)%N then String backslash "b"
  else if (code c =? 12)%N then String backslash "f"
  else if (code c =? 10)%N then String backslash "n"
  else if (code c =? 13)%N then String backslash "r"
  else if (code c =? 9)%N then String backslash "t"
  else if (code c =? 11)%N then String backslash "v"
  else if (code c <? 32)%N || (code c =? 127)%N
  then String backslash (String "x" (String (hex_digit (code c / 16)) (String (hex_digit (code c mod 16)) "")))
  else String c "".

(** [strconv.Quote] on a string of ASCII bytes: the operand between double
    quotes, with quotes and backslashes escaped and control bytes written
    as Go escapes. Bytes from 0x80 on are kept as they are (Go keeps the
    printable runes and escapes the others). *)
Definition Quote : Quoter := λ s,
  String dquote (foldr (λ c r, quote_byte c +:+ r) (String dquote "") (String.list_ascii_of_string s)).

End QuoteModel.

(** ** The vocabulary of the properties *)

(** [flag v] for each [v], in order. *)
Definition flagged (flag : string) (values : list string) : list string :=
  flat_map (λ v, [flag; v]) values.

(** The name the generator uses: the name of the overrides when these are
    present with a non-empty name, the name of the specification otherwise. *)
Definition chosen_name (spec : ContainerSpec.t) (opts : option RunOptions.t) : string :=
  match opts with
  | Some o => if Generator.nonempty (RunOptions.Name o) then RunOptions.Name o
              else ContainerSpec.Name spec
  | None => ContainerSpec.Name spec
  end.

Definition name_tokens (spec : ContainerSpec.t) (opts : option RunOptions.t) : list string :=
  if Generator.nonempty (chosen_name spec opts) then ["--name"; chosen_name spec opts] else [].

Definition label_tokens (kv : string * string) : list string :=
  ["-l"; kv.1 +:+ "=" +:+ kv.2].

(** The tokens between the name and the labels, and those after the labels. *)
Definition tokens_before_labels (spec : ContainerSpec.t) : list string :=
  flagged "-e" (elems (ContainerSpec.Env spec)) ++
  flagged "-v" (elems (ContainerSpec.Volumes spec)) ++
  flagged "-p" (elems (ContainerSpec.Ports spec)) ++
  flagged "--network" (elems (ContainerSpec.Networks spec)) ++
  (if Generator.nonempty (ContainerSpec.WorkingDir spec)
   then ["-w"; ContainerSpec.WorkingDir spec] else []).

Definition tokens_after_labels (spec : ContainerSpec.t) : list string :=
  flagged "--device" (elems (ContainerSpec.Devices spec)) ++
  flagged "--add-host" (elems (ContainerSpec.ExtraHosts spec)) ++
  (if Generator.nonempty (ContainerSpec.Restart spec)
   then ["--restart"; ContainerSpec.Restart spec] else []) ++
  match elems (ContainerSpec.EntryPoint spec) with
  | entry0 :: _ => ["--entrypoint"; entry0]
  | [] => []
  end ++
  [ContainerSpec.Image spec] ++
  elems (ContainerSpec.Command spec).

(** What the two generator variants emit, following the specification:
    a flag with its value, a flag whose value the textual variant quotes,
    a label, or a bare word (the image, a command argument). *)
Inductive emitted :=
  | Flag (flag value : string)
  | QuotedFlag (flag value : string)
  | Label (key value : string)
  | Word (w : string).

Definition emitted_tokens (e : emitted) : list string :=
  match e with
  | Flag f v => [f; v]
  | QuotedFlag f v => [f; v]
  | Label k v => ["-l"; k +:+ "=" +:+ v]
  | Word w => [w]
  end.

Definition emitted_text `{!Quoter} (e : emitted) : string :=
  match e with
  | Flag f v => f +:+ " " +:+ v
  | QuotedFlag f v => f +:+ " " +:+ Quote v
  | Label k v => "-l " +:+ k +:+ "=" +:+ Quote v
  | Word w => w
  end.

Definition emission `{!MapOrder} (spec : ContainerSpec.t) (opts : option RunOptions.t)
    : list emitted :=
  (if Generator.nonempty (chosen_name spec opts)
   then [Flag "--name" (chosen_name spec opts)] else []) ++
  map (QuotedFlag "-e") (elems (ContainerSpec.Env spec)) ++
  map (Flag "-v") (elems (ContainerSpec.Volumes spec)) ++
  map (Flag "-p") (elems (ContainerSpec.Ports spec)) ++
  map (Flag "--network") (elems (ContainerSpec.Networks spec)) ++
  (if Generator.nonempty (ContainerSpec.WorkingDir spec)
   then [Flag "-w" (ContainerSpec.WorkingDir spec)] else []) ++
  map (λ kv, Label kv.1 kv.2) (range_map (ContainerSpec.Labels spec)) ++
  map (Flag "--device") (elems (ContainerSpec.Devices spec)) ++
  map (Flag "--add-host") (elems (ContainerSpec.ExtraHosts spec)) ++
  (if Generator.nonempty (ContainerSpec.Restart spec)
   then [Flag "--restart" (ContainerSpec.Restart spec)] else []) ++
  match elems (ContainerSpec.EntryPoint spec) with
  | entry0 :: _ => [Flag "--entrypoint" entry0]
  | [] => []
  end ++
  [Word (ContainerSpec.Image spec)] ++
  map Word (elems (ContainerSpec.Command spec)).

(** The name of the overrides, empty when there are none. *)
Definition overrides_name (opts : option RunOptions.t) : string :=
  from_option RunOptions.Name "" opts.

(** Every token but the name pair; neither the name of the specification
    nor the overrides take part. *)
Definition other_tokens `{!MapOrder} (spec : ContainerSpec.t) : list string :=
  tokens_before_labels spec ++
  flat_map label_tokens (range_map (ContainerSpec.Labels spec)) ++
  tokens_after_labels spec.

(** The labels of a specification as a map, empty for [nil]. *)
Definition labels_of (spec : ContainerSpec.t) : gmap string string :=
  default ∅ (ContainerSpec.Labels spec).

(** The slice a loop of [append]s builds from [nil]. *)
Definition appended {A} (xs : list A) : slice A :=
  match xs with
  | [] => None
  | _ :: _ => Some xs
  end.

(** The volume entries of one mount record. *)
Definition is_bind_or_volume (m : Mount.t) : bool :=
  String.eqb (Mount.Type_ m) "bind" || String.eqb (Mount.Type_ m) "volume".

Definition volume_string (m : Mount.t) : string :=
  Mount.Source m +:+ ":" +:+ Mount.Destination m +:+ (if Mount.RW m then "" else ":ro").

Definition volume_entries (m : Mount.t) : list string :=
  if is_bind_or_volume m then [volume_string m] else [].

(** [key] up to its first slash, all of it when it has none. *)
Fixpoint before_slash (key : string) : string :=
  match key with
  | EmptyString => EmptyString
  | String c key' => if Ascii.eqb c "/" then EmptyString else String c (before_slash key')
  end.

(** The port entries of one container port with its host bindings. *)
Definition binding_entries (containerPort : string) (b : PortBinding.t) : list string :=
  if Parser.nonempty (PortBinding.HostPort b)
  then [PortBinding.HostPort b +:+ ":" +:+ before_slash containerPort]
  else [].

Definition port_entries (kv : string * slice PortBinding.t) : list string :=
  flat_map (binding_entries kv.1) (elems kv.2).

Definition device_string (d : Device.t) : string :=
  Device.PathOnHost d +:+ ":" +:+ Device.PathInContainer d.

Definition restart_of (name : string) : string :=
  if Parser.nonempty name && negb (String.eqb name "no") then name else "".

(** The specification the parser builds from the first inspection object. *)
Definition spec_of `{!MapOrder} (data : InspectData.t) : ContainerSpec.t :=
  ContainerSpec.mk
    (Strings.TrimPrefix (InspectData.Name data) "/")
    (Config.Image (InspectData.Config data))
    (Config.Env (InspectData.Config data))
    (appended (flat_map volume_entries (elems (InspectData.Mounts data))))
    (appended (flat_map port_entries
       (range_map (NetworkSettings.Ports (InspectData.NetworkSettings data)))))
    (appended (map fst
       (range_map (NetworkSettings.Networks (InspectData.NetworkSettings data)))))
    (Config.Cmd (InspectData.Config data))
    (Config.WorkingDir (InspectData.Config data))
    (Config.Labels (InspectData.Config data))
    (Config.Entrypoint (InspectData.Config data))
    (appended (map device_string (elems (HostConfig.Devices (InspectData.HostConfig data)))))
    (HostConfig.ExtraHosts (InspectData.HostConfig data))
    (restart_of (RestartPolicy.Name (HostConfig.RestartPolicy (InspectData.HostConfig data)))).

(** The documents and specifications of the scenarios. *)
Definition app_spec : ContainerSpec.t :=
  ContainerSpec.mk "app" "alpine" (Some ["X=1"]) (Some ["/a:/b"]) (Some ["80:80"])
    None (Some ["echo"; "hi"]) "" None None None None "".

Definition dev_opts : RunOptions.t := RunOptions.mk "dev".

Definition entrypoint_spec (entryPoint : slice string) : ContainerSpec.t :=
  ContainerSpec.mk "" "img" None None None None None "" None entryPoint None None "".

(** The parser run on the model of encoding/json, with maps visited in
    canonical order, on a text written with an apostrophe for each double
    quote. *)
Definition parse_text (text : string) : option ContainerSpec.t * option error :=
  @Parser.ParseInspectJSON model_Unmarshaler canonical_order (JsonModel.double_quoted text).

(** The minimal document: one element, name and image, nothing else. *)
Definition minimal_doc : string :=
  "[{'Name':'/app','Config':{'Image':'alpine'}}]".

Definition minimal_data : InspectData.t :=
  InspectData.mk "/app" (Config.mk "alpine" None None None None "") None
  NetworkSettings.zero HostConfig.zero.

(** A read-only bind mount, a writable volume and a tmpfs mount. *)
Definition mounts_doc : string :=
  "[{'Name':'/app','Config':{'Image':'alpine'},'Mounts':[
   {'Type':'bind','Source':'/host','Destination':'/container','Mode':'','RW':false},
   {'Type':'volume','Source':'data','Destination':'/var/lib/data','RW':true},
   {'Type':'tmpfs','Source':'','Destination':'/run','RW':true}]}]".

Definition mounts_data : InspectData.t :=
  InspectData.mk "/app" (Config.mk "alpine" None None None None "")
  (Some [Mount.mk "bind" "/host" "/container" "" false;
         Mount.mk "volume" "data" "/var/lib/data" "" true;
         Mount.mk "tmpfs" "" "/run" "" true])
  NetworkSettings.zero HostConfig.zero.

(** Bind and volume mounts whose source and destination are missing. *)
Definition pathless_doc : string :=
  "[{'Mounts':[{'Type':'bind','RW':true},{'Type':'volume'}]}]".

Definition pathless_data : InspectData.t :=
  InspectData.mk "" Config.zero
  (Some [Mount.mk "bind" "" "" "" true; Mount.mk "volume" "" "" "" false])
  NetworkSettings.zero HostConfig.zero.

(** One published port. *)
Definition ports_doc : string :=
  "[{'NetworkSettings':{'Ports':{'8080/tcp':[{'HostIp':'0.0.0.0','HostPort':'9000'}]}}}]".

Definition ports_data : InspectData.t :=
  InspectData.mk "" Config.zero None
  (NetworkSettings.mk None
     (Some {[ "8080/tcp" := Some [PortBinding.mk "0.0.0.0" "9000"] ]}))
  HostConfig.zero.

(** A restart policy. *)
Definition restart_doc : string :=
  "[{'HostConfig':{'RestartPolicy':{'Name':'always','MaximumRetryCount':0}}}]".

Definition restart_data : InspectData.t :=
  InspectData.mk "" Config.zero None NetworkSettings.zero
  (HostConfig.mk None (RestartPolicy.mk "always" 0) None).

(** Two inspection objects. *)
Definition two_doc : string := "[{'Name':'/first'},{'Name':'/second'}]".

Definition named_data (name : string) : InspectData.t :=
  InspectData.mk name Config.zero None NetworkSettings.zero HostConfig.zero.

Definition image_spec (image : string) : ContainerSpec.t :=
  ContainerSpec.mk "" image None None None None None "" None None None None "".


(** ** main.go: the manager

    The manager drives the docker client through [exec.Command] and
    [cmd.Run]. A command is its argument vector, client name first; what a
    command does is given by a [System], from the commands run before it.
    A method is a function of the commands run so far, giving its results
    and the commands run after it. Writing to the log has no part in what
    the methods return and is left out. *)

Module Exec.
(** What [cmd.Run()] leaves: its error, and what the command wrote to its
    standard output and to its standard error. *)
Record Outcome := mk { Err : option error; Stdout : string; Stderr : string }.
End Exec.

Class System := run_command : list (list string) → list string → Exec.Outcome.

Module Manager.
Import Strings.

(** The errors the manager returns: an error of another package as it is,
    [fmt.Errorf(before + "%w" + after, err)], and [fmt.Errorf(msg)] for a
    message without [%w]. *)
Inductive merror :=
| ofError (err : error)
| Errorf (before : string) (err : merror) (after : string)
| errorf (msg : string).

(** A call that returns, or dereferences a [nil] pointer. *)
Inductive outcome (A : Type) :=
| Returns (a : A)
| Panics.
Arguments Returns {A} a.
Arguments Panics {A}.

Definition IO (A : Type) : Type := list (list string) → A * list (list string).

Definition ret {A} (a : A) : IO A := λ h, (a, h).

Definition bind {A B} (m : IO A) (k : A → IO B) : IO B :=
  λ h, let '(a, h') := m h in k a h'.

(** [exec.Command(argv[0], argv[1:]...)] followed by [Run]. *)
Definition Run `{!System} (argv : list string) : IO Exec.Outcome :=
  λ h, (run_command h argv, h ++ [argv]).

(** [strings.Contains]. *)
Fixpoint strings_Contains (s substr : string) : bool :=
  HasPrefix s substr ||
  match s with
  | String _ s' => strings_Contains s' substr
  | EmptyString => false
  end.

Record t := mk { containerName : string; devSwapDir : string }.

(** [waitForContainer] polls the client until a deadline of the wall
    clock; the manager is defined over any such method. *)
Class Waiter := waitForContainer : t → string → Z → IO (option merror).

(** [10*time.Second], in nanoseconds. *)
Definition ten_seconds : Z := 10 * 1000000000.

Definition nonempty (s : string) : bool := negb (String.eqb s "").

Definition GetContainerConfig `{!System, !Unmarshaler, !MapOrder}
    (m : t) : IO (option ContainerSpec.t * option merror) :=
  bind (Run ["docker"; "inspect"; containerName m]) (λ out,
  match Exec.Err out with
  | Some err =>
      ret (None, Some (Errorf ("failed to inspect container '" +:+ containerName m +:+ "': ")
                              (ofError err) (", stderr: " +:+ Exec.Stderr out)))
  | None =>
      let '(spec, err) := Parser.ParseInspectJSON (Exec.Stdout out) in
      match err with
      | Some err =>
          ret (None, Some (Errorf ("failed to parse inspect JSON for container '" +:+
                                   containerName m +:+ "': ") (ofError err) ""))
      | None => ret (spec, None)
      end
  end).

Definition executeDockerRun `{!System} (m : t) (args : slice string) : IO (option merror) :=
  bind (Run ("docker" :: elems (append (Some ["run"; "-d"]) (elems args)))) (λ out,
  match Exec.Err out with
  | Some err =>
      ret (Some (Errorf "docker run failed: " (ofError err)
                        (", stderr: " +:+ Exec.Stderr out)))
  | None => ret None
  end).

Definition installDebugger `{!System} (m : t) (containerName : string) : IO (option merror) :=
  (* Step 1: Check if Go is installed *)
  bind (Run ["docker"; "exec"; containerName; "which"; "go"]) (λ check,
  match Exec.Err check with
  | Some _ =>
      ret (Some (errorf ("Go is not installed in container '" +:+ containerName +:+
                         "', cannot install debugger")))
  | None =>
  (* Step 2: Install delve *)
  bind (Run ["docker"; "exec"; containerName; "go"; "install";
             "github.com/go-delve/delve/cmd/dlv@latest"]) (λ install,
  match Exec.Err install with
  | Some err => ret (Some (Errorf "failed to install delve: " (ofError err) ""))
  | None =>
  (* Step 3: Verify delve installation *)
  bind (Run ["docker"; "exec"; containerName; "sh"; "-c";
             "command -v dlv || echo 'dlv not found'"]) (λ verify,
  match Exec.Err verify with
  | Some err => ret (Some (Errorf "failed to verify delve installation: " (ofError err) ""))
  | None =>
      if strings_Contains (Exec.Stdout verify) "not found"
      then ret (Some (errorf "delve installed but not found in PATH"))
      else ret None
  end)
  end)
  end).

Definition executeInContainer `{!System} (m : t) (containerName command : string)
    : IO (option merror) :=
  bind (Run ["docker"; "exec"; containerName; "sh"; "-c"; command]) (λ out,
  match Exec.Err out with
  | Some err =>
      ret (Some (Errorf ("failed to execute command in container '" +:+ containerName +:+ "': ")
                        (ofError err) ""))
  | None => ret None
  end).

Definition CreateDevContainer `{!System, !Unmarshaler, !MapOrder, !Waiter}
    (m : t) (devContainerName : string) (enableDebugger : bool) (injectScript : string)
    : IO (outcome (option merror)) :=
  (* Step 1: Get original container config *)
  bind (GetContainerConfig m) (λ '(spec, err),
  match err with
  | Some err => ret (Returns (Some (Errorf "failed to get container config: " err "")))
  | None =>
  match spec with
  | None => ret Panics
  | Some spec =>
  (* Step 2: Modify spec for dev container *)
  let spec :=
    if nonempty (devSwapDir m)
    then ContainerSpec.set_Volumes
           (append (ContainerSpec.Volumes spec) [devSwapDir m +:+ ":/dev-swap"]) spec
    else spec in
  let spec :=
    if enableDebugger
    then ContainerSpec.set_Ports (append (ContainerSpec.Ports spec) ["2345:2345"]) spec
    else spec in
  (* Step 3: Generate and execute docker run command *)
  let opts := Some (RunOptions.mk devContainerName) in
  let runArgs := Generator.GenerateRunCommand spec opts in
  bind (executeDockerRun m runArgs) (λ err,
  match err with
  | Some err => ret (Returns (Some (Errorf "failed to run dev container: " err "")))
  | None =>
  (* Step 4: Wait for container to be ready *)
  bind (waitForContainer m devContainerName ten_seconds) (λ err,
  match err with
  | Some err => ret (Returns (Some (Errorf "container failed to start: " err "")))
  | None =>
  (* Step 5: Install debugger if requested *)
  bind (if enableDebugger
        then bind (installDebugger m devContainerName) (λ _, ret ())
        else ret ()) (λ _,
  (* Step 6: Inject custom script if provided *)
  bind (if nonempty injectScript
        then bind (executeInContainer m devContainerName injectScript) (λ _, ret ())
        else ret ()) (λ _,
  ret (Returns None)))
  end)
  end)
  end
  end).

End Manager.

(** The parts of an inspection object the parser reads: the mode of a
    mount, the permissions of a device and the retry count of the restart
    policy set to their zero values. *)
Definition read_parts (data : InspectData.t) : InspectData.t :=
  InspectData.mk (InspectData.Name data) (InspectData.Config data)
    (fmap (map (λ m, Mount.mk (Mount.Type_ m) (Mount.Source m) (Mount.Destination m)
                       "" (Mount.RW m)))
          (InspectData.Mounts data))
    (InspectData.NetworkSettings data)
    (HostConfig.mk
       (fmap (map (λ d, Device.mk (Device.PathOnHost d) (Device.PathInContainer d) ""))
             (HostConfig.Devices (InspectData.HostConfig data)))
       (RestartPolicy.mk
          (RestartPolicy.Name (HostConfig.RestartPolicy (InspectData.HostConfig data))) 0)
       (HostConfig.ExtraHosts (InspectData.HostConfig data))).

(** [c] occurs in [s]. *)
Definition has_byte (c : ascii) (s : string) : Prop :=
  In c (String.list_ascii_of_string s).

(** The number of flag-and-value pairs the generator emits. *)
Definition flag_count (spec : ContainerSpec.t) (opts : option RunOptions.t) : nat :=
  (if Generator.nonempty (chosen_name spec opts) then 1 else 0) +
  len (ContainerSpec.Env spec) + len (ContainerSpec.Volumes spec) +
  len (ContainerSpec.Ports spec) + len (ContainerSpec.Networks spec) +
  (if Generator.nonempty (ContainerSpec.WorkingDir spec) then 1 else 0) +
  size (labels_of spec) +
  len (ContainerSpec.Devices spec) + len (ContainerSpec.ExtraHosts spec) +
  (if Generator.nonempty (ContainerSpec.Restart spec) then 1 else 0) +
  (if bool_decide (0 < len (ContainerSpec.EntryPoint spec)) then 1 else 0).

(** The specification [CreateDevContainer] hands to the generator: the
    parsed one with the dev-swap volume and the debugger port added. *)
Definition dev_spec (m : Manager.t) (enableDebugger : bool) (spec : ContainerSpec.t)
  : ContainerSpec.t :=
  ContainerSpec.mk (ContainerSpec.Name spec) (ContainerSpec.Image spec)
    (ContainerSpec.Env spec)
    (append (ContainerSpec.Volumes spec)
       (if Manager.nonempty (Manager.devSwapDir m)
        then [Manager.devSwapDir m +:+ ":/dev-swap"] else []))
    (append (ContainerSpec.Ports spec) (if enableDebugger then ["2345:2345"] else []))
    (ContainerSpec.Networks spec) (ContainerSpec.Command spec)
    (ContainerSpec.WorkingDir spec) (ContainerSpec.Labels spec)
    (ContainerSpec.EntryPoint spec) (ContainerSpec.Devices spec)
    (ContainerSpec.ExtraHosts spec) (ContainerSpec.Restart spec).

(** The three commands of [installDebugger]. *)
Definition which_go (name : string) : list string :=
  ["docker"; "exec"; name; "which"; "go"].
Definition install_dlv (name : string) : list string :=
  ["docker"; "exec"; name; "go"; "install"; "github.com/go-delve/delve/cmd/dlv@latest"].
Definition verify_dlv (name : string) : list string :=
  ["docker"; "exec"; name; "sh"; "-c"; "command -v dlv || echo 'dlv not found'"].

(** A system on which every command succeeds and [docker inspect] prints
    the minimal document; a system on which every command fails; a wait
    that succeeds at once. *)
Definition friendly_system : System :=
  λ _ argv, Exec.mk None (JsonModel.double_quoted minimal_doc) "".

Definition hostile_system : System :=
  λ _ argv, Exec.mk (Some (errorString "exit status 1")) "" "no such container".

Definition instant_wait : Manager.Waiter := λ _ _ _ h, (None, h).

Definition app_manager : Manager.t := Manager.mk "app" "/src".

(** A system on which the commands run inside a container fail and every
    other command succeeds, [docker inspect] printing the minimal document. *)
Definition exec_failing_system : System :=
  λ _ argv,
    if bool_decide (argv !! 1 = Some "exec")
    then Exec.mk (Some (errorString "exit status 126")) "" ""
    else Exec.mk None (JsonModel.double_quoted minimal_doc) "".

(** A system on which docker run fails and every other command succeeds. *)
Definition run_failing_system : System :=
  λ _ argv,
    if bool_decide (argv !! 1 = Some "run")
    then Exec.mk (Some (errorString "exit status 125")) "" "name already in use"
    else Exec.mk None (JsonModel.double_quoted minimal_doc) "".

(** The specification parsed from the minimal document. *)
Definition minimal_spec : ContainerSpec.t :=
  ContainerSpec.mk "app" "alpine" None None None None None "" None None None None "".


(** Two networks, with their settings. *)
Definition networks_doc : string :=
  "[{'NetworkSettings':{'Networks':{'bridge':{'Gateway':'172.17.0.1'},'backend':null}}}]".

Definition networks_data : InspectData.t :=
  InspectData.mk "" Config.zero None
    (NetworkSettings.mk
       (Some (<["bridge" := Json.Object [("Gateway", Json.Str "172.17.0.1")]]>
              (<["backend" := Json.Null]> ∅)))
       None)
    HostConfig.zero.

(** Two devices. *)
Definition devices_doc : string :=
  "[{'HostConfig':{'Devices':[
     {'PathOnHost':'/dev/fuse','PathInContainer':'/dev/fuse','CgroupPermissions':'rwm'},
     {'PathOnHost':'/dev/sda','PathInContainer':'/dev/xvda','CgroupPermissions':'r'}]}}]".

Definition devices_data : InspectData.t :=
  InspectData.mk "" Config.zero None NetworkSettings.zero
    (HostConfig.mk
       (Some [Device.mk "/dev/fuse" "/dev/fuse" "rwm"; Device.mk "/dev/sda" "/dev/xvda" "r"])
       RestartPolicy.zero None).

(** A configuration section with every member, and extra hosts. *)
Definition config_doc : string :=
  "[{'Name':'/web','Config':{'Image':'nginx:1.25','Env':['A=1','B=2'],'Cmd':['nginx','-g'],
     'Entrypoint':[],'Labels':{'tier':'front'},'WorkingDir':'/srv'},
     'HostConfig':{'ExtraHosts':['db:10.0.0.5']}}]".

Definition config_data : InspectData.t :=
  InspectData.mk "/web"
    (Config.mk "nginx:1.25" (Some ["A=1"; "B=2"]) (Some ["nginx"; "-g"]) (Some [])
       (Some {[ "tier" := "front" ]}) "/srv")
    None NetworkSettings.zero
    (HostConfig.mk None RestartPolicy.zero (Some ["db:10.0.0.5"])).

(** Two documents that differ in what the parser does not read: the mode
    of the mount, the permissions of the device, the retry count, and a
    second inspection object. *)
Definition unread_doc_a : string :=
  "[{'Name':'/app','Mounts':[{'Type':'bind','Source':'/a','Destination':'/b','Mode':'z','RW':true}],
     'HostConfig':{'Devices':[{'PathOnHost':'/dev/fuse','PathInContainer':'/dev/fuse',
                               'CgroupPermissions':'rwm'}],
                   'RestartPolicy':{'Name':'on-failure','MaximumRetryCount':5}}},
    {'Name':'/other'}]".

Definition unread_doc_b : string :=
  "[{'Name':'/app','Mounts':[{'Type':'bind','Source':'/a','Destination':'/b','RW':true}],
     'HostConfig':{'Devices':[{'PathOnHost':'/dev/fuse','PathInContainer':'/dev/fuse'}],
                   'RestartPolicy':{'Name':'on-failure'}}}]".

Definition unread_data (mode permissions : string) (retries : Z) : InspectData.t :=
  InspectData.mk "/app" Config.zero
    (Some [Mount.mk "bind" "/a" "/b" mode true])
    NetworkSettings.zero
    (HostConfig.mk (Some [Device.mk "/dev/fuse" "/dev/fuse" permissions])
       (RestartPolicy.mk "on-failure" retries) None).

(** A specification without environment entries and labels. *)
Definition plain_spec : ContainerSpec.t :=
  ContainerSpec.mk "web" "nginx" None (Some ["/a:/b"]) (Some ["80:80"]) (Some ["bridge"])
    (Some ["nginx"; "-g"; "daemon off;"]) "/srv" None (Some ["/entry.sh"; "x"])
    None None "always".

(** A specification with one label and nothing else but an image. *)
Definition label_spec (key value : string) : ContainerSpec.t :=
  ContainerSpec.mk "" "img" None None None None None "" (Some {[ key := value ]})
    None None None "".

(** A specification with the two labels a=1 and b=2 and an image. *)
Definition two_label_spec : ContainerSpec.t :=
  ContainerSpec.mk "" "img" None None None None None ""
    (Some (<["a" := "1"]> {[ "b" := "2" ]})) None None None "".

(** ** The expected shape of an inspection document

    The Go types [json.Unmarshal] is asked to fill, as shapes of JSON
    values: a string, a boolean, an integer, any value (an [interface{}]),
    a slice, a map with string keys, a struct with its fields by their JSON
    names. *)
#[warnings="-register-all"] Inductive shape :=
| SString
| SBool
| SInt
| SAny
| SSlice (elem : shape)
| SMap (elem : shape)
| SStruct (fields : list (string * shape)).

(** The field a member name stands for: the field of that name or, failing
    that, the first field of that name up to case; none for other names. *)
Definition shape_of_field (fields : list (string * shape)) (key : string) : option shape :=
  match find (λ f : string * shape, String.eqb f.1 key) fields with
  | Some f => Some f.2
  | None =>
      match find (λ f : string * shape,
                    String.eqb (JsonModel.fold_name f.1) (JsonModel.fold_name key)) fields with
      | Some f => Some f.2
      | None => None
      end
  end.

(** Every number of the value is within the range of [float64]. *)
Fixpoint all_finite (v : Json.value) : bool :=
  match v with
  | Json.Number lit => negb (JsonModel.overflows_float64 lit)
  | Json.Array vs => forallb all_finite vs
  | Json.Object ms => forallb (λ '(_, x), all_finite x) ms
  | _ => true
  end.

(** [fits v s]: the JSON value [v] has the shape [s]. [null] has every
    shape; a string, boolean or integer literal has the shape of its kind;
    an array has the shape of a slice when its elements have the shape of
    the elements; an object has the shape of a map when its values fit, and
    the shape of a struct when the members that name a field fit that
    field (other members are free). *)
Fixpoint fits (v : Json.value) (s : shape) {struct v} : bool :=
  match s with
  | SAny => all_finite v
  | _ =>
    match v with
    | Json.Null => true
    | Json.Bool _ => match s with SBool => true | _ => false end
    | Json.Number lit =>
        match s with
        | SInt => bool_decide (is_Some (JsonModel.parse_int lit))
        | _ => false
        end
    | Json.Str _ => match s with SString => true | _ => false end
    | Json.Array vs =>
        match s with
        | SSlice elem => forallb (λ x, fits x elem) vs
        | _ => false
        end
    | Json.Object ms =>
        match s with
        | SMap elem => forallb (λ '(_, x), fits x elem) ms
        | SStruct fields =>
            forallb (λ '(k, x),
                       match shape_of_field fields k with
                       | Some field => fits x field
                       | None => true
                       end) ms
        | _ => false
        end
    end
  end.

Definition Mount_shape : shape :=
  SStruct [("Type", SString); ("Source", SString); ("Destination", SString);
           ("Mode", SString); ("RW", SBool)].

Definition PortBinding_shape : shape :=
  SStruct [("HostIp", SString); ("HostPort", SString)].

Definition Device_shape : shape :=
  SStruct [("PathOnHost", SString); ("PathInContainer", SString);
           ("CgroupPermissions", SString)].

Definition RestartPolicy_shape : shape :=
  SStruct [("Name", SString); ("MaximumRetryCount", SInt)].

Definition Config_shape : shape :=
  SStruct [("Image", SString); ("Env", SSlice SString); ("Cmd", SSlice SString);
           ("Entrypoint", SSlice SString); ("Labels", SMap SString);
           ("WorkingDir", SString)].

Definition NetworkSettings_shape : shape :=
  SStruct [("Networks", SMap SAny); ("Ports", SMap (SSlice PortBinding_shape))].

Definition HostConfig_shape : shape :=
  SStruct [("Devices", SSlice Device_shape); ("RestartPolicy", RestartPolicy_shape);
           ("ExtraHosts", SSlice SString)].

Definition InspectData_shape : shape :=
  SStruct [("Name", SString); ("Config", Config_shape); ("Mounts", SSlice Mount_shape);
           ("NetworkSettings", NetworkSettings_shape); ("HostConfig", HostConfig_shape)].

(** The shape of [[]InspectData]. *)
Definition inspect_array_shape : shape := SSlice InspectData_shape.

(** The reading of the words "a JSON array of inspection objects of the
    expected shape": an array, each element of it an object whose members
    are of the types of their fields. It is compared with [fits] at
    [inspect_array_shape], which is what the decoder accepts. *)
Definition array_of_inspect_objects (v : Json.value) : bool :=
  match v with
  | Json.Array vs =>
      forallb (λ x, match x with
                    | Json.Object _ => fits x InspectData_shape
                    | _ => false
                    end) vs
  | _ => false
  end.

(** The parser on the model of encoding/json, on the text as it is. *)
Definition parse_model `{!MapOrder} (jsonData : string)
    : option ContainerSpec.t * option error :=
  @Parser.ParseInspectJSON model_Unmarshaler _ jsonData.

(** ** Slices built by [append] *)

Section SliceFacts.
Context {A : Type}.
Implicit Types (s : slice A) (xs ys : list A).

Lemma append_nil s : append s [] = s.
Proof. reflexivity. Qed.

Lemma elems_append s xs : elems (append s xs) = elems s ++ xs.
Proof. destruct xs; simpl; [by rewrite app_nil_r | done]. Qed.

Lemma append_append s xs ys : append (append s xs) ys = append s (xs ++ ys).
Proof.
  destruct ys as [|y ys]; [by rewrite app_nil_r|].
  destruct xs as [|x xs]; [done|].
  simpl. by rewrite <- app_assoc.
Qed.

Lemma append_None xs : append None xs = appended xs.
Proof. by destruct xs. Qed.

Lemma appended_app_cons xs y ys : appended (xs ++ y :: ys) = Some (xs ++ y :: ys).
Proof. by destruct xs. Qed.

Lemma elems_appended xs : elems (appended xs) = xs.
Proof. by destruct xs. Qed.

Lemma append_if (c : bool) s xs :
  (if c then append s xs else s) = append s (if c then xs else []).
Proof. by destruct c. Qed.

(** [if len(t) > 0 { s = append(s, t...) }] is [s = append(s, t...)]. *)
Lemma append_if_len s (t : slice A) :
  (if bool_decide (0 < len t) then append s (elems t) else s) = append s (elems t).
Proof.
  case_bool_decide as Hlen; [done|].
  unfold len in Hlen. destruct (elems t); [done | simpl in Hlen; lia].
Qed.

(** A loop that appends [g x] for each [x] appends them all, in order. *)
Lemma foldl_append {B} (g : B → list A) (l : list B) s :
  foldl (λ acc x, append acc (g x)) s l = append s (flat_map g l).
Proof.
  revert s. induction l as [|x l IH]; intros s; simpl; [done|].
  by rewrite IH, append_append.
Qed.

End SliceFacts.

(** ** The argument slice of the generator *)

Section GeneratorFacts.
Context `{!MapOrder}.
Implicit Types (spec : ContainerSpec.t) (opts : option RunOptions.t).

Lemma name_step spec opts (args : slice string) :
  (if match opts with Some o => Generator.nonempty (RunOptions.Name o) | None => false end
   then append args ["--name"; from_option RunOptions.Name "" opts]
   else if Generator.nonempty (ContainerSpec.Name spec)
   then append args ["--name"; ContainerSpec.Name spec]
   else args) = append args (name_tokens spec opts).
Proof.
  unfold name_tokens, chosen_name.
  destruct opts as [o|]; simpl.
  - destruct (Generator.nonempty (RunOptions.Name o)) eqn:Ho.
    + by rewrite Ho.
    + by destruct (Generator.nonempty (ContainerSpec.Name spec)).
  - by destruct (Generator.nonempty (ContainerSpec.Name spec)).
Qed.

Lemma entrypoint_step spec (args : slice string) :
  match elems (ContainerSpec.EntryPoint spec) with
  | entry0 :: _ => append args ["--entrypoint"; entry0]
  | [] => args
  end = append args match elems (ContainerSpec.EntryPoint spec) with
                    | entry0 :: _ => ["--entrypoint"; entry0]
                    | [] => []
                    end.
Proof. by destruct (elems (ContainerSpec.EntryPoint spec)). Qed.

(** The generator returns, in one allocated slice, the name tokens, the
    tokens before the labels, the labels in the order of this run, and the
    tokens after the labels. *)
Lemma GenerateRunCommand_tokens spec opts :
  Generator.GenerateRunCommand spec opts =
  Some (name_tokens spec opts ++ tokens_before_labels spec ++
        flat_map label_tokens (range_map (ContainerSpec.Labels spec)) ++
        tokens_after_labels spec).
Proof.
  unfold Generator.GenerateRunCommand. cbv zeta.
  rewrite append_if_len, entrypoint_step, name_step, !append_if.
  rewrite (foldl_append (λ v, ["-e"; v])), (foldl_append (λ v, ["-v"; v])),
    (foldl_append (λ v, ["-p"; v])), (foldl_append (λ v, ["--network"; v])).
  rewrite (foldl_append (λ kv : string * string, ["-l"; kv.1 +:+ "=" +:+ kv.2])).
  rewrite (foldl_append (λ v, ["--device"; v])), (foldl_append (λ v, ["--add-host"; v])).
  rewrite !append_append, append_None.
  unfold tokens_before_labels, tokens_after_labels, flagged.
  change (flat_map (λ kv : string * string, ["-l"; kv.1 +:+ "=" +:+ kv.2]))
    with (flat_map label_tokens).
  rewrite <- !app_assoc. simpl.
  repeat (rewrite (app_assoc _ _ (ContainerSpec.Image spec :: _))).
  by rewrite appended_app_cons.
Qed.

End GeneratorFacts.

(** ** The command generator *)

Lemma range_map_perm `{!MapOrder} {V} (m : gomap V) :
  range_map m ≡ₚ map_to_list (default ∅ m).
Proof.
  destruct m as [g|]; simpl.
  - apply map_range_perm.
  - by rewrite map_to_list_empty.
Qed.

Lemma length_label_tokens (labels : list (string * string)) :
  length (flat_map label_tokens labels) = 2 * length labels.
Proof. induction labels as [|kv labels IH]; simpl; [done | lia]. Qed.

Lemma length_range_labels `{!MapOrder} (spec : ContainerSpec.t) :
  length (range_map (ContainerSpec.Labels spec)) = size (labels_of spec).
Proof. by rewrite range_map_perm, length_map_to_list. Qed.

(** The loop over a map with one label visits that label, whatever the
    order of the run; over a map with two labels it visits both, in one of
    the two orders. *)
Lemma range_map_singleton `{!MapOrder} {V} (k : string) (v : V) :
  range_map (Some {[ k := v ]}) = [(k, v)].
Proof.
  apply Permutation_singleton_r. rewrite range_map_perm. simpl.
  by rewrite map_to_list_singleton.
Qed.

Lemma range_map_two `{!MapOrder} {V} (k1 k2 : string) (v1 v2 : V) :
  k1 ≠ k2 →
  range_map (Some (<[k1 := v1]> {[ k2 := v2 ]})) = [(k1, v1); (k2, v2)]
  ∨ range_map (Some (<[k1 := v1]> {[ k2 := v2 ]})) = [(k2, v2); (k1, v1)].
Proof.
  intros Hne. apply Permutation_length_2_inv. symmetry.
  rewrite range_map_perm. simpl.
  rewrite map_to_list_insert by (by apply lookup_singleton_ne).
  by rewrite map_to_list_singleton.
Qed.

(** C1. The argument slice is, in this order: the name pair, [-e] with each
    environment entry, [-v] with each volume, [-p] with each port,
    [--network] with each network, [-w] with the working directory when it
    is not empty, [-l key=value] for each label, [--device] with each
    device, [--add-host] with each extra host, [--restart] with the policy
    when it is not empty, [--entrypoint] with the first element of a
    non-empty entrypoint and nothing for the others, the image in every
    case, and the command arguments last. The labels visited are those of
    the label map, each key once with its value, so that the label segment
    holds one pair of tokens for each label of the map. The specification
    app/alpine yields exactly the expected slice; an empty entrypoint emits
    no [--entrypoint], and of the entrypoint sh, -c, x only sh is emitted;
    one label k=v gives [-l k=v] before the image, and the two labels a=1
    and b=2 give the two pairs in one order or the other. *)
Theorem generator_token_sequence `{!MapOrder}
    (spec : ContainerSpec.t) (opts : option RunOptions.t) :
  Generator.GenerateRunCommand spec opts =
    Some (name_tokens spec opts ++
          flagged "-e" (elems (ContainerSpec.Env spec)) ++
          flagged "-v" (elems (ContainerSpec.Volumes spec)) ++
          flagged "-p" (elems (ContainerSpec.Ports spec)) ++
          flagged "--network" (elems (ContainerSpec.Networks spec)) ++
          (if Generator.nonempty (ContainerSpec.WorkingDir spec)
           then ["-w"; ContainerSpec.WorkingDir spec] else []) ++
          flat_map label_tokens (range_map (ContainerSpec.Labels spec)) ++
          flagged "--device" (elems (ContainerSpec.Devices spec)) ++
          flagged "--add-host" (elems (ContainerSpec.ExtraHosts spec)) ++
          (if Generator.nonempty (ContainerSpec.Restart spec)
           then ["--restart"; ContainerSpec.Restart spec] else []) ++
          match elems (ContainerSpec.EntryPoint spec) with
          | entry0 :: _ => ["--entrypoint"; entry0]
          | [] => []
          end ++
          [ContainerSpec.Image spec] ++
          elems (ContainerSpec.Command spec))
  ∧ range_map (ContainerSpec.Labels spec) ≡ₚ map_to_list (labels_of spec)
  ∧ NoDup (range_map (ContainerSpec.Labels spec)).*1
  ∧ (∀ k v, (k, v) ∈ range_map (ContainerSpec.Labels spec)
            ↔ ∃ labels, ContainerSpec.Labels spec = Some labels ∧ labels !! k = Some v)
  ∧ length (flat_map label_tokens (range_map (ContainerSpec.Labels spec))) =
      2 * size (labels_of spec)
  ∧ Generator.GenerateRunCommand app_spec None =
      Some ["--name"; "app"; "-e"; "X=1"; "-v"; "/a:/b"; "-p"; "80:80";
            "alpine"; "echo"; "hi"]
  ∧ Generator.GenerateRunCommand (entrypoint_spec (Some [])) None = Some ["img"]
  ∧ Generator.GenerateRunCommand (entrypoint_spec (Some ["sh"; "-c"; "x"])) None =
      Some ["--entrypoint"; "sh"; "img"]
  ∧ Generator.GenerateRunCommand (label_spec "k" "v") None = Some ["-l"; "k=v"; "img"]
  ∧ (Generator.GenerateRunCommand two_label_spec None =
       Some ["-l"; "a=1"; "-l"; "b=2"; "img"]
     ∨ Generator.GenerateRunCommand two_label_spec None =
       Some ["-l"; "b=2"; "-l"; "a=1"; "img"]).
Proof.
  split.
  { rewrite GenerateRunCommand_tokens.
    unfold tokens_before_labels, tokens_after_labels.
    by rewrite <- !app_assoc. }
  split; [apply range_map_perm|].
  split; [rewrite range_map_perm; apply NoDup_fst_map_to_list|].
  split.
  { intros k v. rewrite range_map_perm, elem_of_map_to_list.
    destruct (ContainerSpec.Labels spec) as [labels|]; simpl.
    - split; [intros Hk; by exists labels | by intros (? & [= <-] & Hk)].
    - rewrite lookup_empty. split; [done | by intros (? & ? & _)]. }
  split.
  { by rewrite length_label_tokens, length_range_labels. }
  split; [by rewrite GenerateRunCommand_tokens|].
  split; [by rewrite GenerateRunCommand_tokens|].
  split; [by rewrite GenerateRunCommand_tokens|].
  split.
  { rewrite GenerateRunCommand_tokens. unfold label_spec. simpl ContainerSpec.Labels.
    by rewrite range_map_singleton. }
  rewrite GenerateRunCommand_tokens. unfold two_label_spec. simpl ContainerSpec.Labels.
  destruct (range_map_two (V := string) "a" "b" "1" "2") as [-> | ->]; [done|by left|by right].
Qed.

(** C2. The name pair carries the name of the overrides when they are
    present with a non-empty name, otherwise the name of the specification
    when that is not empty, and is left out when both are empty; the other
    tokens are the same in the three cases. With the overrides named dev
    the slice starts with [--name dev] and goes on as without overrides. *)
Theorem generator_name_tokens `{!MapOrder}
    (spec : ContainerSpec.t) (opts : option RunOptions.t) :
  (overrides_name opts ≠ "" →
     Generator.GenerateRunCommand spec opts =
       Some (["--name"; overrides_name opts] ++ other_tokens spec))
  ∧ (overrides_name opts = "" → ContainerSpec.Name spec ≠ "" →
     Generator.GenerateRunCommand spec opts =
       Some (["--name"; ContainerSpec.Name spec] ++ other_tokens spec))
  ∧ (overrides_name opts = "" → ContainerSpec.Name spec = "" →
     Generator.GenerateRunCommand spec opts = Some (other_tokens spec))
  ∧ Generator.GenerateRunCommand app_spec None =
      Some (["--name"; "app"] ++
            ["-e"; "X=1"; "-v"; "/a:/b"; "-p"; "80:80"; "alpine"; "echo"; "hi"])
  ∧ Generator.GenerateRunCommand app_spec (Some dev_opts) =
      Some (["--name"; "dev"] ++
            ["-e"; "X=1"; "-v"; "/a:/b"; "-p"; "80:80"; "alpine"; "echo"; "hi"]).
Proof.
  assert (Hne : ∀ s, s ≠ "" → Generator.nonempty s = true).
  { intros s Hs. unfold Generator.nonempty. by apply String.eqb_neq in Hs as ->. }
  rewrite (GenerateRunCommand_tokens spec). fold (other_tokens spec).
  unfold name_tokens, chosen_name, overrides_name.
  split; [|split; [|split; [|split]]].
  - intros Ho. destruct opts as [o|]; simpl in *; [|done].
    by rewrite !(Hne _ Ho).
  - intros Ho Hs.
    destruct opts as [o|]; simpl in *; [rewrite Ho; simpl|]; by rewrite (Hne _ Hs).
  - intros Ho Hs.
    destruct opts as [o|]; simpl in *; [rewrite Ho; simpl|]; by rewrite Hs.
  - by rewrite GenerateRunCommand_tokens.
  - by rewrite GenerateRunCommand_tokens.
Qed.

(** C9. Two calls on the same specification and overrides return the same
    tokens before the labels and the same tokens after them; in between
    each call emits one [-l key=value] pair for every label of the map and
    no other, so the two label segments are permutations of each other, and
    the two slices are equal when the two calls visit the labels in the
    same order. *)
Theorem generator_deterministic (run1 run2 : MapOrder)
    (spec : ContainerSpec.t) (opts : option RunOptions.t) :
  ∃ (before after : list string) (labels1 labels2 : list (string * string)),
    @Generator.GenerateRunCommand run1 spec opts =
      Some (before ++ flat_map label_tokens labels1 ++ after)
    ∧ @Generator.GenerateRunCommand run2 spec opts =
      Some (before ++ flat_map label_tokens labels2 ++ after)
    ∧ labels1 ≡ₚ labels2
    ∧ flat_map label_tokens labels1 ≡ₚ flat_map label_tokens labels2
    ∧ NoDup labels1.*1
    ∧ (∀ k v, (k, v) ∈ labels1 ↔ labels_of spec !! k = Some v)
    ∧ (labels1 = labels2 →
       @Generator.GenerateRunCommand run1 spec opts =
       @Generator.GenerateRunCommand run2 spec opts).
Proof.
  exists (name_tokens spec opts ++ tokens_before_labels spec), (tokens_after_labels spec),
    (@range_map run1 _ (ContainerSpec.Labels spec)),
    (@range_map run2 _ (ContainerSpec.Labels spec)).
  rewrite !GenerateRunCommand_tokens, <- !app_assoc.
  assert (Hperm : @range_map run1 _ (ContainerSpec.Labels spec)
                  ≡ₚ @range_map run2 _ (ContainerSpec.Labels spec))
    by (by rewrite !range_map_perm).
  repeat split; try done.
  - by rewrite !flat_map_concat_map, Hperm.
  - rewrite range_map_perm. apply NoDup_fst_map_to_list.
  - rewrite range_map_perm. apply elem_of_map_to_list.
  - rewrite range_map_perm. apply elem_of_map_to_list.
  - by intros ->.
Qed.

(** ** Strings *)

Lemma string_app_cons (x : ascii) (a b : string) : String x a +:+ b = String x (a +:+ b).
Proof. reflexivity. Qed.

Lemma string_app_assoc (a b c : string) : (a +:+ b) +:+ c = a +:+ b +:+ c.
Proof. induction a as [|x a IH]; [done|]. rewrite !string_app_cons. by f_equal. Qed.

Lemma string_app_nil_r (a : string) : a +:+ "" = a.
Proof. induction a as [|x a IH]; [done|]. rewrite string_app_cons. by f_equal. Qed.

(** A string with a colon in it is not empty. *)
Lemma nonempty_colon (a b : string) : Parser.nonempty (a +:+ ":" +:+ b) = true.
Proof. by destruct a. Qed.

Lemma HasPrefix_slash (c : ascii) (s : string) :
  Strings.HasPrefix (String c s) "/" = Ascii.eqb c "/".
Proof.
  rewrite (Ascii.eqb_sym c "/"). change (Strings.HasPrefix (String c s) "/")
    with (if Ascii.eqb "/" c then Strings.HasPrefix s "" else false).
  by destruct (Ascii.eqb "/" c), s.
Qed.

Lemma split_from_cons (cur : string) (c : ascii) (s : string) :
  Strings.split_from "/" 0 cur (String c s) =
  if Ascii.eqb c "/" then cur :: Strings.split_from "/" 0 "" s
  else Strings.split_from "/" 0 (cur +:+ String c "") s.
Proof. by rewrite <- HasPrefix_slash with (s := s). Qed.

Lemma before_slash_cons (c : ascii) (s : string) :
  before_slash (String c s) = if Ascii.eqb c "/" then "" else String c (before_slash s).
Proof. reflexivity. Qed.

Lemma split_from_head (cur s : string) :
  head (Strings.split_from "/" 0 cur s) = Some (cur +:+ before_slash s).
Proof.
  revert cur. induction s as [|c s IH]; intros cur.
  - simpl. by rewrite string_app_nil_r.
  - rewrite split_from_cons, before_slash_cons.
    destruct (Ascii.eqb c "/").
    + simpl. by rewrite string_app_nil_r.
    + by rewrite IH, string_app_assoc.
Qed.

(** [strings.Split(s, "/")] has a first element, [s] up to its first slash. *)
Lemma Split_head (s : string) : head (Strings.Split s "/") = Some (before_slash s).
Proof. apply split_from_head. Qed.

Lemma flat_map_singleton {A B} (f : A → B) (l : list A) :
  flat_map (λ x, [f x]) l = map f l.
Proof. induction l as [|x l IH]; simpl; [done | by f_equal]. Qed.

(** ** The inspection parser *)

Section ParserFacts.
Context `{!Unmarshaler, !MapOrder}.

(** A loop that appends to one field of the specification. *)
Lemma foldl_set_append {B} (get : ContainerSpec.t → slice string)
    (set : slice string → ContainerSpec.t → ContainerSpec.t)
    (g : B → list string) (body : ContainerSpec.t → B → ContainerSpec.t) :
  (∀ v w s, set v (set w s) = set v s) →
  (∀ s, set (get s) s = s) →
  (∀ v s, get (set v s) = v) →
  (∀ s x, body s x = set (append (get s) (g x)) s) →
  ∀ l s, foldl body s l = set (append (get s) (flat_map g l)) s.
Proof.
  intros Hss Hgs Hsg Hbody l.
  induction l as [|x l IH]; intros s; simpl.
  - by rewrite Hgs.
  - by rewrite IH, Hbody, Hsg, Hss, append_append.
Qed.

Lemma volumes_loop (mounts : list Mount.t) (spec : ContainerSpec.t) :
  foldl (λ spec mount,
    let volumeStr := "" in
    let volumeStr :=
      if String.eqb (Mount.Type_ mount) "bind"
      then Mount.Source mount +:+ ":" +:+ Mount.Destination mount
      else if String.eqb (Mount.Type_ mount) "volume"
      then Mount.Source mount +:+ ":" +:+ Mount.Destination mount
      else volumeStr in
    if Parser.nonempty volumeStr then
      let volumeStr :=
        if negb (Mount.RW mount) then volumeStr +:+ ":ro" else volumeStr in
      ContainerSpec.set_Volumes
        (append (ContainerSpec.Volumes spec) [volumeStr]) spec
    else spec) spec mounts =
  ContainerSpec.set_Volumes
    (append (ContainerSpec.Volumes spec) (flat_map volume_entries mounts)) spec.
Proof.
  apply (foldl_set_append ContainerSpec.Volumes ContainerSpec.set_Volumes);
    try (by intros; destruct s).
  intros s m. cbv zeta.
  unfold volume_entries, volume_string, is_bind_or_volume.
  destruct (String.eqb (Mount.Type_ m) "bind"); simpl;
    [|destruct (String.eqb (Mount.Type_ m) "volume"); simpl; [|by destruct s]];
    rewrite nonempty_colon; destruct (Mount.RW m); simpl;
    by rewrite ?string_app_assoc, ?string_app_nil_r.
Qed.

Lemma bindings_loop (containerPort : string) (bindings : list PortBinding.t)
    (spec : ContainerSpec.t) :
  foldl (λ spec binding,
    if Parser.nonempty (PortBinding.HostPort binding) then
      let portStr :=
        PortBinding.HostPort binding +:+ ":" +:+
        default "" (head (Strings.Split containerPort "/")) in
      ContainerSpec.set_Ports
        (append (ContainerSpec.Ports spec) [portStr]) spec
    else spec) spec bindings =
  ContainerSpec.set_Ports
    (append (ContainerSpec.Ports spec)
       (flat_map (binding_entries containerPort) bindings)) spec.
Proof.
  apply (foldl_set_append ContainerSpec.Ports ContainerSpec.set_Ports);
    try (by intros; destruct s).
  intros s b. cbv zeta. unfold binding_entries. rewrite Split_head. simpl.
  destruct (Parser.nonempty (PortBinding.HostPort b)); [done | by destruct s].
Qed.

Lemma ports_loop (ports : list (string * slice PortBinding.t)) (spec : ContainerSpec.t) :
  foldl (λ spec '(containerPort, bindings),
    if bool_decide (0 < len bindings) then
      foldl (λ spec binding,
        if Parser.nonempty (PortBinding.HostPort binding) then
          let portStr :=
            PortBinding.HostPort binding +:+ ":" +:+
            default "" (head (Strings.Split containerPort "/")) in
          ContainerSpec.set_Ports
            (append (ContainerSpec.Ports spec) [portStr]) spec
        else spec)
        spec (elems bindings)
    else spec) spec ports =
  ContainerSpec.set_Ports
    (append (ContainerSpec.Ports spec) (flat_map port_entries ports)) spec.
Proof.
  apply (foldl_set_append ContainerSpec.Ports ContainerSpec.set_Ports);
    try (by intros; destruct s).
  intros s [containerPort bindings]. rewrite bindings_loop. unfold port_entries. simpl.
  case_bool_decide as Hlen; [done|].
  unfold len in Hlen. destruct (elems bindings); simpl in *; [by destruct s | lia].
Qed.

Lemma networks_loop (networks : list (string * Json.value)) (spec : ContainerSpec.t) :
  foldl (λ spec '(networkName, _),
    ContainerSpec.set_Networks
      (append (ContainerSpec.Networks spec) [networkName]) spec) spec networks =
  ContainerSpec.set_Networks
    (append (ContainerSpec.Networks spec) (map fst networks)) spec.
Proof.
  rewrite <- (flat_map_singleton fst).
  apply (foldl_set_append ContainerSpec.Networks ContainerSpec.set_Networks);
    try (by intros; destruct s).
  by intros s [networkName v].
Qed.

Lemma devices_loop (devices : list Device.t) (spec : ContainerSpec.t) :
  foldl (λ spec device,
    let deviceStr :=
      Device.PathOnHost device +:+ ":" +:+ Device.PathInContainer device in
    ContainerSpec.set_Devices
      (append (ContainerSpec.Devices spec) [deviceStr]) spec) spec devices =
  ContainerSpec.set_Devices
    (append (ContainerSpec.Devices spec) (map device_string devices)) spec.
Proof.
  rewrite <- (flat_map_singleton device_string).
  by apply (foldl_set_append ContainerSpec.Devices ContainerSpec.set_Devices);
    try (by intros; destruct s).
Qed.

(** When [json.Unmarshal] succeeds with at least one element, the parser
    returns the specification of the first and no error. *)
Lemma ParseInspectJSON_first (jsonData : string) (data : InspectData.t)
    (rest : list InspectData.t) :
  Unmarshal jsonData = (Some (data :: rest), None) →
  Parser.ParseInspectJSON jsonData = (Some (spec_of data), None).
Proof.
  intros HU. unfold Parser.ParseInspectJSON. rewrite HU. simpl.
  rewrite volumes_loop, ports_loop, networks_loop, devices_loop. simpl.
  rewrite !append_None. unfold spec_of, restart_of.
  by destruct (Parser.nonempty _ && negb _).
Qed.

Lemma ParseInspectJSON_error (jsonData : string) (arr : slice InspectData.t) (err : error) :
  Unmarshal jsonData = (arr, Some err) →
  Parser.ParseInspectJSON jsonData = (None, Some (wrapError "failed to parse JSON: " err)).
Proof. intros HU. unfold Parser.ParseInspectJSON. by rewrite HU. Qed.

Lemma ParseInspectJSON_empty (jsonData : string) (arr : slice InspectData.t) :
  Unmarshal jsonData = (arr, None) → len arr = 0 →
  Parser.ParseInspectJSON jsonData = (None, Some (errorString "empty inspect data")).
Proof.
  intros HU Hlen. unfold Parser.ParseInspectJSON. rewrite HU.
  unfold len in Hlen. by destruct (elems arr).
Qed.

End ParserFacts.

Lemma flat_map_filter {A B} (p : A → bool) (f : A → B) (l : list A) :
  flat_map (λ x, if p x then [f x] else []) l = map f (List.filter p l).
Proof.
  induction l as [|x l IH]; simpl; [done|].
  destruct (p x); simpl; by f_equal.
Qed.

Lemma nonempty_true (s : string) : Parser.nonempty s = true ↔ s ≠ "".
Proof.
  unfold Parser.nonempty. rewrite negb_true_iff. apply String.eqb_neq.
Qed.

(** ** The model of encoding/json and the expected shape *)

Section DecoderFacts.
Import JsonModel.

Local Abbreviation sound D s := (∀ v cur, (D v cur).2 = None ↔ fits v s = true).

Lemma first_error_None (e1 e2 : option error) :
  first_error e1 e2 = None ↔ e1 = None ∧ e2 = None.
Proof. destruct e1, e2; simpl; split; (done || by intros [? ?]). Qed.

Lemma to_interface_error (v : Json.value) :
  (to_interface v).2 = None ↔ all_finite v = true.
Proof.
  revert v. fix IH 1. intros [|b|lit|str|vs|ms]; simpl; try done.
  - destruct (overflows_float64 lit); simpl; split; done.
  - induction vs as [|x vs IHvs]; simpl; [done|].
    specialize (IH x). destruct (to_interface x) as [x' e]. simpl in IH.
    match type of IHvs with (?t).2 = None ↔ _ => destruct t as [r e'] end.
    simpl in *. by rewrite first_error_None, andb_true_iff, IH, IHvs.
  - induction ms as [|[k x] ms IHms]; simpl; [done|].
    specialize (IH x). destruct (to_interface x) as [x' e]. simpl in IH.
    match type of IHms with (?t).2 = None ↔ _ => destruct t as [r e'] end.
    simpl in *. by rewrite first_error_None, andb_true_iff, IH, IHms.
Qed.

Lemma string_sound : sound string_Decode SString.
Proof. intros [| | | | |] cur; simpl; split; done. Qed.

Lemma bool_sound : sound bool_Decode SBool.
Proof. intros [| | | | |] cur; simpl; split; done. Qed.

Lemma int_sound : sound int_Decode SInt.
Proof.
  intros [|b|lit|str|vs|ms] cur; simpl; try (split; done).
  destruct (parse_int lit); simpl; split; done.
Qed.

Lemma fits_any (v : Json.value) : fits v SAny = all_finite v.
Proof. by destruct v. Qed.

Lemma interface_sound : sound interface_Decode SAny.
Proof. intros v cur. rewrite fits_any. apply to_interface_error. Qed.

Lemma decode_elems_error `{!Decode T, !Zero T} (s : shape) (vs : list Json.value) :
  sound (@decode T _) s →
  (decode_elems vs).2 = None ↔ forallb (λ x, fits x s) vs = true.
Proof.
  intros Hsound. induction vs as [|x vs IH]; simpl; [done|].
  specialize (Hsound x zero_value).
  destruct (decode x zero_value) as [a e]. destruct (decode_elems vs) as [r e'].
  simpl in *. by rewrite first_error_None, andb_true_iff, Hsound, IH.
Qed.

Lemma decode_elems_length `{!Decode T, !Zero T} (vs : list Json.value) :
  length (decode_elems vs).1 = length vs.
Proof.
  induction vs as [|x vs IH]; simpl; [done|].
  destruct (decode x zero_value) as [a e]. destruct (decode_elems vs) as [r e'].
  simpl in *. by rewrite IH.
Qed.

Lemma slice_sound `{!Decode T, !Zero T} (s : shape) :
  sound (@decode T _) s → sound (@slice_Decode T _ _) (SSlice s).
Proof.
  intros Hsound v cur. destruct v as [|b|lit|str|vs|ms]; simpl; try (split; done).
  pose proof (decode_elems_error s vs Hsound) as Helems.
  by destruct (decode_elems vs) as [xs e].
Qed.

Lemma map_fold_error `{!Decode V, !Zero V} (s : shape) (ms : list (string * Json.value))
    (m : gmap string V) (e : option error) :
  sound (@decode V _) s →
  (foldl (λ '(m, e) '(k, x),
            let '(y, e') := decode x zero_value in
            (<[k := y]> m, first_error e e')) (m, e) ms).2 = None
  ↔ e = None ∧ forallb (λ '(_, x), fits x s) ms = true.
Proof.
  intros Hsound. revert m e. induction ms as [|[k x] ms IH]; intros m e; simpl.
  - split; [done | by intros [? _]].
  - specialize (Hsound x zero_value). destruct (decode x zero_value) as [y e'].
    simpl in Hsound. rewrite IH, first_error_None, andb_true_iff, Hsound. tauto.
Qed.

Lemma map_sound `{!Decode V, !Zero V} (s : shape) :
  sound (@decode V _) s → sound (@map_Decode V _ _) (SMap s).
Proof.
  intros Hsound v cur. destruct v as [|b|lit|str|vs|ms]; simpl; try (split; done).
  pose proof (map_fold_error s ms (default ∅ cur) None Hsound) as Hfold.
  destruct (foldl _ _ ms) as [m e]. simpl in *. rewrite Hfold. tauto.
Qed.

(** A field of a struct and a field of its shape: the same name, and the
    field accepts the values of that shape. *)
Local Abbreviation field_sound f sh :=
  (f.1 = sh.1 ∧ ∀ v t, (f.2 v t).2 = None ↔ fits v sh.2 = true).

Lemma find_fields {T} (p : string → bool) (fs : list (field T)) (ss : list (string * shape)) :
  Forall2 (λ f sh, field_sound f sh) fs ss →
  match find (λ f : field T, p f.1) fs, find (λ sh : string * shape, p sh.1) ss with
  | Some f, Some sh => field_sound f sh
  | None, None => True
  | _, _ => False
  end.
Proof.
  induction 1 as [|f sh fs ss [Hname Hfits] _ IH]; simpl; [done|].
  rewrite <- Hname. by destruct (p f.1).
Qed.

Lemma find_field_shape {T} (fs : list (field T)) (ss : list (string * shape)) (key : string) :
  Forall2 (λ f sh, field_sound f sh) fs ss →
  match find_field fs key, shape_of_field ss key with
  | Some store, Some sh => ∀ v t, (store v t).2 = None ↔ fits v sh = true
  | None, None => True
  | _, _ => False
  end.
Proof.
  intros Hfields. unfold find_field, shape_of_field.
  pose proof (find_fields (λ name, String.eqb name key) fs ss Hfields) as Hexact.
  pose proof (find_fields (λ name, String.eqb (fold_name name) (fold_name key)) fs ss Hfields)
    as Hfold.
  simpl in *.
  destruct (find _ fs) as [f|], (find _ ss) as [sh|]; try done; [by destruct Hexact|].
  destruct (find _ fs) as [f|], (find _ ss) as [sh|]; try done. by destruct Hfold.
Qed.

Lemma struct_fold_error {T} (fs : list (field T)) (ss : list (string * shape))
    (ms : list (string * Json.value)) (t : T) (e : option error) :
  Forall2 (λ f sh, field_sound f sh) fs ss →
  (foldl (λ '(t, e) '(k, x),
            match find_field fs k with
            | Some store => let '(t', e') := store x t in (t', first_error e e')
            | None => (t, e)
            end) (t, e) ms).2 = None
  ↔ e = None ∧ forallb (λ '(k, x),
                          match shape_of_field ss k with
                          | Some sh => fits x sh
                          | None => true
                          end) ms = true.
Proof.
  intros Hfields. revert t e. induction ms as [|[k x] ms IH]; intros t e; simpl.
  - split; [done | by intros [? _]].
  - pose proof (find_field_shape fs ss k Hfields) as Hfield.
    destruct (find_field fs k) as [store|], (shape_of_field ss k) as [sh|]; try done.
    specialize (Hfield x t). destruct (store x t) as [t' e']. simpl in Hfield.
    rewrite IH, first_error_None, andb_true_iff, Hfield. tauto.
Qed.

Lemma struct_sound {T} (fs : list (field T)) (ss : list (string * shape)) :
  Forall2 (λ f sh, field_sound f sh) fs ss →
  sound (decode_struct fs) (SStruct ss).
Proof.
  intros Hfields v cur. destruct v as [|b|lit|str|vs|ms]; simpl; try (split; done).
  rewrite (struct_fold_error fs ss ms cur None Hfields). tauto.
Qed.

Lemma fld_sound {T A} `{!Decode A} (name : string) (get : T → A) (set : A → T → T)
    (s : shape) :
  sound (@decode A _) s → field_sound (fld name get set) (name, s).
Proof.
  intros Hsound. split; [done|]. intros v t. simpl.
  specialize (Hsound v (get t)). by destruct (decode v (get t)).
Qed.

Ltac fields_sound :=
  apply struct_sound;
  repeat match goal with
         | |- Forall2 _ (_ :: _) (_ :: _) => constructor; [apply fld_sound|]
         | |- Forall2 _ [] [] => constructor
         end.

Lemma Mount_sound : sound Mount_Decode Mount_shape.
Proof. fields_sound; (apply string_sound || apply bool_sound). Qed.

Lemma PortBinding_sound : sound PortBinding_Decode PortBinding_shape.
Proof. fields_sound; apply string_sound. Qed.

Lemma Device_sound : sound Device_Decode Device_shape.
Proof. fields_sound; apply string_sound. Qed.

Lemma RestartPolicy_sound : sound RestartPolicy_Decode RestartPolicy_shape.
Proof. fields_sound; (apply string_sound || apply int_sound). Qed.

Lemma Config_sound : sound Config_Decode Config_shape.
Proof.
  fields_sound;
    first [apply string_sound | apply slice_sound, string_sound | apply map_sound, string_sound].
Qed.

Lemma NetworkSettings_sound : sound NetworkSettings_Decode NetworkSettings_shape.
Proof.
  fields_sound; apply map_sound; [apply interface_sound | apply slice_sound, PortBinding_sound].
Qed.

Lemma HostConfig_sound : sound HostConfig_Decode HostConfig_shape.
Proof.
  fields_sound;
    first [apply slice_sound, Device_sound | apply RestartPolicy_sound
          | apply slice_sound, string_sound].
Qed.

Lemma InspectData_sound : sound InspectData_Decode InspectData_shape.
Proof.
  fields_sound;
    first [apply string_sound | apply Config_sound | apply slice_sound, Mount_sound
          | apply NetworkSettings_sound | apply HostConfig_sound].
Qed.

(** The model of [json.Unmarshal] reports no error exactly on the texts
    that are JSON and whose value has the shape of [[]InspectData]. *)
Lemma Unmarshal_error (text : string) :
  (Unmarshal text).2 = None ↔ ∃ v, scan text = Some v ∧ fits v inspect_array_shape = true.
Proof.
  unfold Unmarshal. destruct (scan text) as [v|]; simpl.
  - etrans; [exact (slice_sound InspectData_shape InspectData_sound v None)|].
    fold inspect_array_shape. split.
    + intros Hfits. by exists v.
    + by intros (v' & [= <-] & Hfits).
  - split; [done | by intros (v & ? & _)].
Qed.

(** What the model leaves in the slice: [nil] for null, one element for
    each element of an array, the first from the first. *)
Lemma Unmarshal_elements (text : string) (v : Json.value) :
  scan text = Some v → fits v inspect_array_shape = true →
  match v with
  | Json.Null => (Unmarshal text).1 = None
  | Json.Array [] => (Unmarshal text).1 = Some []
  | Json.Array (x :: xs) =>
      ∃ rest, (Unmarshal text).1 = Some ((InspectData_Decode x InspectData.zero).1 :: rest)
  | _ => False
  end.
Proof.
  intros Hscan Hfits. unfold Unmarshal. rewrite Hscan.
  destruct v as [|b|lit|str|[|x xs]|ms]; try done.
  unfold decode, slice_Decode, decode_elems. fold (@decode_elems InspectData.t _ _).
  change (@decode InspectData.t InspectData_Decode x zero_value)
    with (InspectData_Decode x InspectData.zero).
  destruct (InspectData_Decode x InspectData.zero) as [a e].
  destruct (decode_elems xs) as [r e']. simpl. by exists r.
Qed.

End DecoderFacts.

(** What the decoder accepts and the claim's reading differ by null only:
    at the top, and among the elements. *)
Lemma array_of_inspect_objects_fits (v : Json.value) :
  array_of_inspect_objects v = true
  ↔ fits v inspect_array_shape = true
    ∧ ∃ vs, v = Json.Array vs ∧ Forall (λ x, x ≠ Json.Null) vs.
Proof.
  destruct v as [|b|lit|str|vs|ms];
    try (split; [done | by intros (_ & vs & ? & _)]).
  change (fits (Json.Array vs) inspect_array_shape)
    with (forallb (λ x, fits x InspectData_shape) vs).
  unfold array_of_inspect_objects.
  induction vs as [|x vs IH]; simpl.
  - split; [intros _; split; [done | by exists []] | done].
  - rewrite !andb_true_iff, IH. split.
    + intros (Hx & Hvs & vs' & [= <-] & Hnull).
      split; [split; [by destruct x | done]|].
      exists (x :: vs). split; [done|]. constructor; [by destruct x | done].
    + intros ((Hx & Hvs) & vs' & [= <-] & Hnull).
      apply Forall_cons in Hnull as [Hnull Hrest].
      split; [by destruct x|]. split; [done|]. by exists vs.
Qed.

(** Members taken away from an object of the expected shape leave an
    object of the expected shape. *)
Lemma fits_fewer_members (fields : list (string * shape))
    (ms ms' : list (string * Json.value)) :
  ms' ⊆ ms →
  fits (Json.Object ms) (SStruct fields) = true →
  fits (Json.Object ms') (SStruct fields) = true.
Proof.
  intros Hsub. simpl. rewrite !forallb_forall. intros Hall m Hm.
  apply Hall, list_elem_of_In, Hsub, list_elem_of_In, Hm.
Qed.

Section ModelParser.
Context `{!MapOrder}.

Lemma parse_model_error (jsonData : string) :
  (∃ err, parse_model jsonData = (None, Some (wrapError "failed to parse JSON: " err)))
  ↔ JsonModel.scan jsonData = None
    ∨ ∃ v, JsonModel.scan jsonData = Some v ∧ fits v inspect_array_shape = false.
Proof.
  pose proof (Unmarshal_error jsonData) as Herror. unfold parse_model.
  destruct (JsonModel.Unmarshal jsonData) as [arr [err|]] eqn:HU; simpl in Herror.
  - rewrite (@ParseInspectJSON_error model_Unmarshaler _ _ arr err HU).
    split; [intros _ | intros _; by exists err].
    destruct (JsonModel.scan jsonData) as [v|]; [right | by left].
    exists v. split; [done|]. destruct (fits v inspect_array_shape) eqn:Hfits; [|done].
    assert (Some err = None) as [=]. apply Herror. by exists v.
  - destruct Herror as [(v & Hscan & Hfits) _]; [done|].
    assert (∃ r, @Parser.ParseInspectJSON model_Unmarshaler _ jsonData = r
                 ∧ ∀ err, r ≠ (None, Some (wrapError "failed to parse JSON: " err)))
      as (r & -> & Hr).
    { destruct arr as [[|data rest]|].
      - eexists. split; [by apply (ParseInspectJSON_empty _ (Some []))|done].
      - eexists. split; [by apply (ParseInspectJSON_first _ data rest)|done].
      - eexists. split; [by apply (ParseInspectJSON_empty _ None)|done]. }
    split; [by intros [err Herr%Hr]|].
    intros [Hnone|(v' & Hscan' & Hfits')]; congruence.
Qed.

Lemma parse_model_empty (jsonData : string) :
  parse_model jsonData = (None, Some (errorString "empty inspect data"))
  ↔ JsonModel.scan jsonData = Some Json.Null
    ∨ JsonModel.scan jsonData = Some (Json.Array []).
Proof.
  unfold parse_model. split.
  - intros Hparse.
    destruct (JsonModel.Unmarshal jsonData) as [arr [err|]] eqn:HU.
    { by rewrite (@ParseInspectJSON_error model_Unmarshaler _ _ arr err HU) in Hparse. }
    assert (Herror : (JsonModel.Unmarshal jsonData).2 = None) by (by rewrite HU).
    apply Unmarshal_error in Herror as (v & Hscan & Hfits).
    pose proof (Unmarshal_elements jsonData v Hscan Hfits) as Helems.
    destruct v as [|b|lit|str|[|x xs]|ms]; try done; [by left | by right|].
    destruct Helems as [rest Helems]. rewrite HU in Helems. simpl in Helems. subst arr.
    by rewrite (@ParseInspectJSON_first model_Unmarshaler _ _ _ rest HU) in Hparse.
  - intros Hscan.
    assert (∃ v, JsonModel.scan jsonData = Some v ∧ fits v inspect_array_shape = true
                 ∧ (v = Json.Null ∨ v = Json.Array [])) as (v & Hv & Hfits & Hshape).
    { destruct Hscan as [Hscan|Hscan]; eexists; (split; [exact Hscan|]); split; auto. }
    assert (Herror : (JsonModel.Unmarshal jsonData).2 = None)
      by (apply Unmarshal_error; by exists v).
    pose proof (Unmarshal_elements jsonData v Hv Hfits) as Helems.
    destruct (JsonModel.Unmarshal jsonData) as [arr err] eqn:HU. simpl in *. subst err.
    apply (@ParseInspectJSON_empty model_Unmarshaler _ _ arr HU).
    destruct Hshape as [-> | ->]; by subst arr.
Qed.

Lemma parse_model_first (jsonData : string) (x : Json.value) (xs : list Json.value) :
  JsonModel.scan jsonData = Some (Json.Array (x :: xs)) →
  fits (Json.Array (x :: xs)) inspect_array_shape = true →
  parse_model jsonData =
    (Some (spec_of (JsonModel.InspectData_Decode x InspectData.zero).1), None).
Proof.
  intros Hscan Hfits. unfold parse_model.
  assert (Herror : (JsonModel.Unmarshal jsonData).2 = None)
    by (apply Unmarshal_error; by eexists).
  destruct (Unmarshal_elements jsonData _ Hscan Hfits) as [rest Helems].
  destruct (JsonModel.Unmarshal jsonData) as [arr err] eqn:HU. simpl in *. subst arr err.
  by apply (@ParseInspectJSON_first model_Unmarshaler _ _ _ rest).
Qed.

End ModelParser.



(** C4. Each mount record of type bind or volume becomes the volume entry
    source:destination, followed by :ro exactly when its read-write flag is
    false; a record of any other type gives no entry. The entries come in
    the order of the records. *)
Theorem parser_mount_translation `{!Unmarshaler, !MapOrder}
    (jsonData : string) (data : InspectData.t) (rest : list InspectData.t) :
  Unmarshal jsonData = (Some (data :: rest), None) →
  ∃ spec,
    Parser.ParseInspectJSON jsonData = (Some spec, None)
    ∧ elems (ContainerSpec.Volumes spec) =
        flat_map
          (λ m, if String.eqb (Mount.Type_ m) "bind" || String.eqb (Mount.Type_ m) "volume"
                then [Mount.Source m +:+ ":" +:+ Mount.Destination m +:+
                      (if Mount.RW m then "" else ":ro")]
                else [])
          (elems (InspectData.Mounts data))
    ∧ volume_entries (Mount.mk "bind" "/host" "/container" "" false) = ["/host:/container:ro"]
    ∧ volume_entries (Mount.mk "bind" "/host" "/container" "" true) = ["/host:/container"]
    ∧ volume_entries (Mount.mk "tmpfs" "" "/run" "" true) = [].
Proof.
  intros HU. exists (spec_of data).
  split; [by apply (ParseInspectJSON_first _ _ rest)|].
  split; [|done]. simpl. by rewrite elems_appended.
Qed.

Lemma parser_mount_translation_witness :
  JsonModel.Unmarshal (JsonModel.double_quoted mounts_doc) = (Some [mounts_data], None)
  ∧ ∃ spec,
      parse_text mounts_doc = (Some spec, None)
      ∧ elems (ContainerSpec.Volumes spec) = ["/host:/container:ro"; "data:/var/lib/data"].
Proof.
  assert (HU : JsonModel.Unmarshal (JsonModel.double_quoted mounts_doc) = (Some [mounts_data], None))
    by (vm_compute; reflexivity).
  split; [exact HU|].
  destruct (@parser_mount_translation model_Unmarshaler canonical_order _ _ _ HU)
    as (spec & Hparse & Hvolumes & _).
  exists spec. split; [exact Hparse|]. rewrite Hvolumes. reflexivity.
Defined.

(** C10. Every mount record of type bind or volume gives exactly one volume
    entry, whatever its source and destination: the paths are not checked,
    and with both empty the entry is a lone colon when the record is
    writable and a double colon followed by ro when it is not. *)
Theorem parser_mount_paths_unchecked `{!Unmarshaler, !MapOrder}
    (jsonData : string) (data : InspectData.t) (rest : list InspectData.t) :
  Unmarshal jsonData = (Some (data :: rest), None) →
  ∃ spec,
    Parser.ParseInspectJSON jsonData = (Some spec, None)
    ∧ elems (ContainerSpec.Volumes spec) =
        map volume_string (List.filter is_bind_or_volume (elems (InspectData.Mounts data)))
    ∧ length (elems (ContainerSpec.Volumes spec)) =
        length (List.filter is_bind_or_volume (elems (InspectData.Mounts data)))
    ∧ (∀ type mode, volume_string (Mount.mk type "" "" mode true) = ":")
    ∧ (∀ type mode, volume_string (Mount.mk type "" "" mode false) = "::ro").
Proof.
  intros HU. exists (spec_of data).
  split; [by apply (ParseInspectJSON_first _ _ rest)|].
  assert (Hvolumes : elems (ContainerSpec.Volumes (spec_of data)) =
    map volume_string (List.filter is_bind_or_volume (elems (InspectData.Mounts data)))).
  { simpl. rewrite elems_appended. apply flat_map_filter. }
  split; [exact Hvolumes|]. split; [|done].
  by rewrite Hvolumes, length_map.
Qed.

Lemma parser_mount_paths_unchecked_witness :
  JsonModel.Unmarshal (JsonModel.double_quoted pathless_doc) = (Some [pathless_data], None)
  ∧ ∃ spec,
      parse_text pathless_doc = (Some spec, None)
      ∧ elems (ContainerSpec.Volumes spec) = [":"; "::ro"].
Proof.
  assert (HU : JsonModel.Unmarshal (JsonModel.double_quoted pathless_doc)
               = (Some [pathless_data], None))
    by (vm_compute; reflexivity).
  split; [exact HU|].
  destruct (@parser_mount_paths_unchecked model_Unmarshaler canonical_order _ _ _ HU)
    as (spec & Hparse & Hvolumes & _).
  exists spec. split; [exact Hparse|]. rewrite Hvolumes. reflexivity.
Defined.

(** What [before_slash] is: the part of the key before its first slash. *)
Lemma before_slash_spec (key : string) :
  ∃ tail, key = before_slash key +:+ tail
    ∧ (tail = "" ∨ ∃ tail', tail = String "/" tail')
    ∧ ∀ c, In c (String.list_ascii_of_string (before_slash key)) → c ≠ "/"%char.
Proof.
  induction key as [|c key (tail & Hkey & Htail & Hfree)].
  - exists "". split; [done|]. split; [by left | by intros c []].
  - rewrite before_slash_cons. destruct (Ascii.eqb_spec c "/") as [->|Hc].
    + exists (String "/" key). split; [done|]. split; [right; by exists key | by intros c []].
    + exists tail. rewrite string_app_cons, <- Hkey. split; [done|]. split; [done|].
      simpl. intros c' [<-|Hin]; [done | by apply Hfree].
Qed.

(** C5. For each container port of the ports mapping, and each of its host
    bindings with a non-empty host port, the parser emits the entry
    hostPort:containerPort, the container port being the key up to its
    first slash. A key without bindings, or whose bindings all have an
    empty host port, gives no entry; several bindings give one entry each,
    duplicates included. The keys are visited once each. *)
Theorem parser_port_translation `{!Unmarshaler, !MapOrder}
    (jsonData : string) (data : InspectData.t) (rest : list InspectData.t) :
  Unmarshal jsonData = (Some (data :: rest), None) →
  ∃ spec,
    Parser.ParseInspectJSON jsonData = (Some spec, None)
    ∧ elems (ContainerSpec.Ports spec) =
        flat_map
          (λ '(containerPort, bindings),
             flat_map
               (λ b, if Parser.nonempty (PortBinding.HostPort b)
                     then [PortBinding.HostPort b +:+ ":" +:+ before_slash containerPort]
                     else [])
               (elems bindings))
          (range_map (NetworkSettings.Ports (InspectData.NetworkSettings data)))
    ∧ range_map (NetworkSettings.Ports (InspectData.NetworkSettings data))
        ≡ₚ map_to_list (default ∅ (NetworkSettings.Ports (InspectData.NetworkSettings data)))
    ∧ (∀ key, ∃ tail, key = before_slash key +:+ tail
         ∧ (tail = "" ∨ ∃ tail', tail = String "/" tail')
         ∧ ∀ c, In c (String.list_ascii_of_string (before_slash key)) → c ≠ "/"%char)
    ∧ port_entries ("8080/tcp", Some [PortBinding.mk "" "9000"]) = ["9000:8080"]
    ∧ port_entries ("8080/tcp", Some [PortBinding.mk "0.0.0.0" ""]) = []
    ∧ port_entries ("8080/tcp", None) = []
    ∧ port_entries ("8080/tcp", Some []) = []
    ∧ port_entries ("80/tcp", Some [PortBinding.mk "0.0.0.0" "8080"; PortBinding.mk "::" "8080"])
      = ["8080:80"; "8080:80"].
Proof.
  intros HU. exists (spec_of data).
  split; [by apply (ParseInspectJSON_first _ _ rest)|].
  split.
  { simpl. rewrite elems_appended. apply flat_map_ext. by intros [containerPort bindings]. }
  split; [apply range_map_perm|].
  split; [apply before_slash_spec|done].
Qed.

Lemma parser_port_translation_witness :
  JsonModel.Unmarshal (JsonModel.double_quoted ports_doc) = (Some [ports_data], None)
  ∧ ∃ spec,
      parse_text ports_doc = (Some spec, None)
      ∧ elems (ContainerSpec.Ports spec) = ["9000:8080"].
Proof.
  assert (HU : JsonModel.Unmarshal (JsonModel.double_quoted ports_doc) = (Some [ports_data], None))
    by (vm_compute; reflexivity).
  split; [exact HU|].
  destruct (@parser_port_translation model_Unmarshaler canonical_order _ _ _ HU)
    as (spec & Hparse & Hports & _).
  exists spec. split; [exact Hparse|]. rewrite Hports. by vm_compute.
Defined.

(** C6. The restart field is the name of the restart policy when that name
    is neither empty nor the word no, and empty otherwise. *)
Theorem parser_restart_policy `{!Unmarshaler, !MapOrder}
    (jsonData : string) (data : InspectData.t) (rest : list InspectData.t) :
  Unmarshal jsonData = (Some (data :: rest), None) →
  ∃ spec,
    Parser.ParseInspectJSON jsonData = (Some spec, None)
    ∧ (RestartPolicy.Name (HostConfig.RestartPolicy (InspectData.HostConfig data)) ≠ "" →
       RestartPolicy.Name (HostConfig.RestartPolicy (InspectData.HostConfig data)) ≠ "no" →
       ContainerSpec.Restart spec =
         RestartPolicy.Name (HostConfig.RestartPolicy (InspectData.HostConfig data)))
    ∧ (RestartPolicy.Name (HostConfig.RestartPolicy (InspectData.HostConfig data)) = "" ∨
       RestartPolicy.Name (HostConfig.RestartPolicy (InspectData.HostConfig data)) = "no" →
       ContainerSpec.Restart spec = "")
    ∧ restart_of "no" = "" ∧ restart_of "always" = "always" ∧ restart_of "" = "".
Proof.
  intros HU. exists (spec_of data).
  split; [by apply (ParseInspectJSON_first _ _ rest)|].
  simpl. unfold restart_of.
  set (name := RestartPolicy.Name _).
  split; [|split; [|done]].
  - intros Hne Hno. apply nonempty_true in Hne. apply String.eqb_neq in Hno.
    by rewrite Hne, Hno.
  - by intros [->| ->].
Qed.

Lemma parser_restart_policy_witness :
  JsonModel.Unmarshal (JsonModel.double_quoted restart_doc) = (Some [restart_data], None)
  ∧ ∃ spec,
      parse_text restart_doc = (Some spec, None)
      ∧ ContainerSpec.Restart spec = "always".
Proof.
  assert (HU : JsonModel.Unmarshal (JsonModel.double_quoted restart_doc) = (Some [restart_data], None))
    by (vm_compute; reflexivity).
  split; [exact HU|].
  destruct (@parser_restart_policy model_Unmarshaler canonical_order _ _ _ HU)
    as (spec & Hparse & Hrestart & _).
  exists spec. split; [exact Hparse|]. by apply Hrestart.
Defined.

Lemma TrimPrefix_slash (name : string) :
  Strings.TrimPrefix (String "/" name) "/" = name.
Proof. unfold Strings.TrimPrefix. rewrite HasPrefix_slash. by destruct name. Qed.

Lemma TrimPrefix_no_slash (name : string) :
  (∀ name', name ≠ String "/" name') → Strings.TrimPrefix name "/" = name.
Proof.
  intros Hname. unfold Strings.TrimPrefix.
  destruct name as [|c name]; [done|].
  rewrite HasPrefix_slash. destruct (Ascii.eqb_spec c "/") as [->|Hc]; [|done].
  by destruct (Hname name).
Qed.

(** The minimal document leaves every collection field of the
    specification [nil]: none is an allocated empty collection. *)
Lemma parser_minimal_document_nil :
  parse_text minimal_doc =
    (Some (ContainerSpec.mk "app" "alpine" None None None None None "" None None None None ""),
     None)
  ∧ (None : slice string) ≠ Some []
  ∧ (None : gomap string) ≠ Some ∅.
Proof. split; [by vm_compute | done]. Qed.

(** C7, as amended. A collection field of the specification whose source
    is absent from the inspection object (left [nil] by [json.Unmarshal])
    is the [nil] slice or the [nil] map, which has no element; and the name
    is the name of the document without its leading slash, if it has one.
    For the minimal document (name and image only) every collection field
    is [nil]. *)
Theorem parser_absent_collections `{!Unmarshaler, !MapOrder}
    (jsonData : string) (data : InspectData.t) (rest : list InspectData.t) :
  Unmarshal jsonData = (Some (data :: rest), None) →
  ∃ spec,
    Parser.ParseInspectJSON jsonData = (Some spec, None)
    ∧ (Config.Env (InspectData.Config data) = None → ContainerSpec.Env spec = None)
    ∧ (Config.Cmd (InspectData.Config data) = None → ContainerSpec.Command spec = None)
    ∧ (Config.Entrypoint (InspectData.Config data) = None →
       ContainerSpec.EntryPoint spec = None)
    ∧ (Config.Labels (InspectData.Config data) = None → ContainerSpec.Labels spec = None)
    ∧ (InspectData.Mounts data = None → ContainerSpec.Volumes spec = None)
    ∧ (NetworkSettings.Ports (InspectData.NetworkSettings data) = None →
       ContainerSpec.Ports spec = None)
    ∧ (NetworkSettings.Networks (InspectData.NetworkSettings data) = None →
       ContainerSpec.Networks spec = None)
    ∧ (HostConfig.Devices (InspectData.HostConfig data) = None →
       ContainerSpec.Devices spec = None)
    ∧ (HostConfig.ExtraHosts (InspectData.HostConfig data) = None →
       ContainerSpec.ExtraHosts spec = None)
    ∧ (∀ name, InspectData.Name data = String "/" name → ContainerSpec.Name spec = name)
    ∧ ((∀ name, InspectData.Name data ≠ String "/" name) →
       ContainerSpec.Name spec = InspectData.Name data)
    ∧ (∀ name image,
         data = InspectData.mk (String "/" name) (Config.mk image None None None None "")
                  None NetworkSettings.zero HostConfig.zero →
         spec = ContainerSpec.mk name image None None None None None ""
                  None None None None "")
    ∧ len (None : slice string) = 0.
Proof.
  intros HU. exists (spec_of data).
  split; [by apply (ParseInspectJSON_first _ _ rest)|].
  unfold spec_of. simpl.
  repeat split; try done; try (by intros ->).
  - intros name ->. apply TrimPrefix_slash.
  - apply TrimPrefix_no_slash.
  - intros name image ->. simpl. by rewrite TrimPrefix_slash.
Qed.

Lemma parser_absent_collections_witness :
  JsonModel.Unmarshal (JsonModel.double_quoted minimal_doc) = (Some [minimal_data], None)
  ∧ ∃ spec,
      parse_text minimal_doc = (Some spec, None)
      ∧ ContainerSpec.Env spec = None ∧ ContainerSpec.Volumes spec = None
      ∧ ContainerSpec.Labels spec = None ∧ ContainerSpec.Name spec = "app".
Proof.
  assert (HU : JsonModel.Unmarshal (JsonModel.double_quoted minimal_doc) = (Some [minimal_data], None))
    by (vm_compute; reflexivity).
  split; [exact HU|].
  destruct (@parser_absent_collections model_Unmarshaler canonical_order _ _ _ HU)
    as (spec & Hparse & Henv & _ & _ & Hlabels & Hvolumes & _ & _ & _ & _ & Hname & _).
  exists spec. split; [exact Hparse|].
  split; [by apply Henv|]. split; [by apply Hvolumes|].
  split; [by apply Hlabels | by apply Hname].
Defined.

(** ** The two variants of the generator *)

Lemma Join_cons (x : string) (xs : list string) (sep : string) :
  xs ≠ [] → Strings.Join (x :: xs) sep = x +:+ sep +:+ Strings.Join xs sep.
Proof. by destruct xs. Qed.

Lemma Join_app (xs ys : list string) (sep : string) :
  xs ≠ [] → ys ≠ [] →
  Strings.Join (xs ++ ys) sep = Strings.Join xs sep +:+ sep +:+ Strings.Join ys sep.
Proof.
  intros Hxs Hys. induction xs as [|x xs IH]; [done|].
  destruct (decide (xs = [])) as [->|Hne].
  - change ([x] ++ ys) with (x :: ys). by rewrite Join_cons.
  - assert (Happ : xs ++ ys ≠ []) by (by destruct xs).
    rewrite <- app_comm_cons, (Join_cons x (xs ++ ys)), (Join_cons x xs) by done.
    by rewrite IH, !string_app_assoc.
Qed.

(** Appending the command joined by spaces and then joining by spaces is
    joining with each command argument appended. *)
Lemma Join_joined (xs ys : list string) (sep : string) :
  xs ≠ [] → ys ≠ [] →
  Strings.Join (xs ++ [Strings.Join ys sep]) sep = Strings.Join (xs ++ ys) sep.
Proof. intros Hxs Hys. by rewrite !Join_app. Qed.

Lemma flat_map_map {A B C} (g : B → list C) (h : A → B) (l : list A) :
  flat_map g (map h l) = flat_map (λ x, g (h x)) l.
Proof. induction l as [|x l IH]; simpl; [done | by f_equal]. Qed.

Section VariantFacts.
Context `{!MapOrder, !Quoter}.
Implicit Types (spec : ContainerSpec.t) (opts : option RunOptions.t).

Lemma text_name_step spec opts (parts : slice string) :
  (if match opts with Some o => GeneratorText.nonempty (RunOptions.Name o) | None => false end
   then append parts ["--name " +:+ from_option RunOptions.Name "" opts]
   else if GeneratorText.nonempty (ContainerSpec.Name spec)
   then append parts ["--name " +:+ ContainerSpec.Name spec]
   else parts) =
  append parts (if Generator.nonempty (chosen_name spec opts)
                then ["--name " +:+ chosen_name spec opts] else []).
Proof.
  unfold chosen_name, GeneratorText.nonempty, Generator.nonempty.
  destruct opts as [o|]; simpl.
  - destruct (negb (String.eqb (RunOptions.Name o) "")) eqn:Ho.
    + by rewrite Ho.
    + by destruct (negb (String.eqb (ContainerSpec.Name spec) "")).
  - by destruct (negb (String.eqb (ContainerSpec.Name spec) "")).
Qed.

Lemma text_entrypoint_step spec (parts : slice string) :
  match elems (ContainerSpec.EntryPoint spec) with
  | entry0 :: _ => append parts ["--entrypoint " +:+ entry0]
  | [] => parts
  end = append parts match elems (ContainerSpec.EntryPoint spec) with
                     | entry0 :: _ => ["--entrypoint " +:+ entry0]
                     | [] => []
                     end.
Proof. by destruct (elems (ContainerSpec.EntryPoint spec)). Qed.

Lemma emission_tokens spec opts :
  flat_map emitted_tokens (emission spec opts) =
  name_tokens spec opts ++ tokens_before_labels spec ++
  flat_map label_tokens (range_map (ContainerSpec.Labels spec)) ++
  tokens_after_labels spec.
Proof.
  unfold emission, name_tokens, tokens_before_labels, tokens_after_labels, flagged.
  rewrite !flat_map_app, !flat_map_map, <- !app_assoc. simpl.
  destruct (Generator.nonempty (chosen_name spec opts)),
    (Generator.nonempty (ContainerSpec.WorkingDir spec)),
    (Generator.nonempty (ContainerSpec.Restart spec)),
    (elems (ContainerSpec.EntryPoint spec)); simpl;
    by rewrite (flat_map_singleton id), map_id.
Qed.

Lemma emission_text spec opts :
  map emitted_text (emission spec opts) =
  (if Generator.nonempty (chosen_name spec opts)
   then ["--name " +:+ chosen_name spec opts] else []) ++
  flat_map (λ v, ["-e " +:+ Quote v]) (elems (ContainerSpec.Env spec)) ++
  flat_map (λ v, ["-v " +:+ v]) (elems (ContainerSpec.Volumes spec)) ++
  flat_map (λ v, ["-p " +:+ v]) (elems (ContainerSpec.Ports spec)) ++
  flat_map (λ v, ["--network " +:+ v]) (elems (ContainerSpec.Networks spec)) ++
  (if Generator.nonempty (ContainerSpec.WorkingDir spec)
   then ["-w " +:+ ContainerSpec.WorkingDir spec] else []) ++
  flat_map (λ kv : string * string, ["-l " +:+ kv.1 +:+ "=" +:+ Quote kv.2])
    (range_map (ContainerSpec.Labels spec)) ++
  flat_map (λ v, ["--device " +:+ v]) (elems (ContainerSpec.Devices spec)) ++
  flat_map (λ v, ["--add-host " +:+ v]) (elems (ContainerSpec.ExtraHosts spec)) ++
  (if Generator.nonempty (ContainerSpec.Restart spec)
   then ["--restart " +:+ ContainerSpec.Restart spec] else []) ++
  match elems (ContainerSpec.EntryPoint spec) with
  | entry0 :: _ => ["--entrypoint " +:+ entry0]
  | [] => []
  end ++
  [ContainerSpec.Image spec] ++
  elems (ContainerSpec.Command spec).
Proof.
  unfold emission. rewrite !map_app, !map_map, !flat_map_singleton. simpl.
  rewrite map_id.
  by destruct (Generator.nonempty (chosen_name spec opts)),
    (Generator.nonempty (ContainerSpec.WorkingDir spec)),
    (Generator.nonempty (ContainerSpec.Restart spec)),
    (elems (ContainerSpec.EntryPoint spec)).
Qed.

Lemma text_command_step (parts command : slice string) (image : string) :
  Strings.Join
    (elems (if bool_decide (0 < len command)
            then append (append parts [image]) [Strings.Join (elems command) " "]
            else append parts [image])) " " =
  Strings.Join (elems parts ++ [image] ++ elems command) " ".
Proof.
  unfold len. destruct (elems command) as [|c command'].
  - rewrite bool_decide_false by (simpl; lia). by rewrite elems_append, app_nil_r.
  - rewrite bool_decide_true by (simpl; lia).
    rewrite !elems_append, Join_joined, <- app_assoc; by try destruct (elems parts).
Qed.

Lemma GenerateRunCommand_text spec opts :
  GeneratorText.GenerateRunCommand spec opts =
  Strings.Join ("docker run" :: map emitted_text (emission spec opts)) " ".
Proof.
  rewrite emission_text.
  unfold GeneratorText.GenerateRunCommand. cbv zeta.
  rewrite text_command_step, text_entrypoint_step, text_name_step.
  change GeneratorText.nonempty with Generator.nonempty.
  rewrite (append_if (Generator.nonempty (ContainerSpec.WorkingDir spec))),
    (append_if (Generator.nonempty (ContainerSpec.Restart spec))).
  rewrite (foldl_append (λ v, ["-e " +:+ Quote v])), (foldl_append (λ v, ["-v " +:+ v])),
    (foldl_append (λ v, ["-p " +:+ v])), (foldl_append (λ v, ["--network " +:+ v])).
  rewrite (foldl_append (λ kv : string * string, ["-l " +:+ kv.1 +:+ "=" +:+ Quote kv.2])).
  rewrite (foldl_append (λ v, ["--device " +:+ v])), (foldl_append (λ v, ["--add-host " +:+ v])).
  rewrite !append_append, append_None, elems_appended.
  f_equal. by rewrite <- !app_assoc.
Qed.

End VariantFacts.

(** The textual variant starts with the words docker run; the variant
    returning the argument slice does not. *)
Lemma text_variant_prefixes_docker_run :
  @GeneratorText.GenerateRunCommand canonical_order QuoteModel.Quote (image_spec "alpine") None
    = "docker run alpine"
  ∧ @Generator.GenerateRunCommand canonical_order (image_spec "alpine") None
    = Some ["alpine"].
Proof. by vm_compute. Qed.

(** C8, as amended. The two variants emit the same fields in the same
    order, and nothing else but for the first words of the text: the slice
    variant returns the tokens of the emitted fields, the textual variant
    returns the words docker run followed by the same fields, each flag and
    its value joined by a space, with environment entries and label values
    quoted by [%q], all joined by single spaces. *)
Theorem generator_variants_agree `{!MapOrder, !Quoter}
    (spec : ContainerSpec.t) (opts : option RunOptions.t) :
  Generator.GenerateRunCommand spec opts =
    Some (flat_map emitted_tokens (emission spec opts))
  ∧ GeneratorText.GenerateRunCommand spec opts =
    Strings.Join ("docker run" :: map emitted_text (emission spec opts)) " "
  ∧ @GeneratorText.GenerateRunCommand canonical_order QuoteModel.Quote app_spec None =
    JsonModel.double_quoted "docker run --name app -e 'X=1' -v /a:/b -p 80:80 alpine echo hi"
  ∧ @Generator.GenerateRunCommand canonical_order app_spec None =
    Some ["--name"; "app"; "-e"; "X=1"; "-v"; "/a:/b"; "-p"; "80:80"; "alpine"; "echo"; "hi"].
Proof.
  split; [by rewrite GenerateRunCommand_tokens, emission_tokens|].
  split; [apply GenerateRunCommand_text | by vm_compute].
Qed.

(** * Further properties

    ** The inspection parser: the other fields *)

(** X1. The networks of the specification are the keys of the networks
    mapping, each once, in the order this run visits the mapping; what the
    mapping holds for a key plays no part. *)
Theorem parser_networks `{!Unmarshaler, !MapOrder}
    (jsonData : string) (data : InspectData.t) (rest : list InspectData.t) :
  Unmarshal jsonData = (Some (data :: rest), None) →
  ∃ spec,
    Parser.ParseInspectJSON jsonData = (Some spec, None)
    ∧ elems (ContainerSpec.Networks spec) =
        (range_map (NetworkSettings.Networks (InspectData.NetworkSettings data))).*1
    ∧ NoDup (elems (ContainerSpec.Networks spec))
    ∧ (∀ name, name ∈ elems (ContainerSpec.Networks spec) ↔
         is_Some (default ∅ (NetworkSettings.Networks (InspectData.NetworkSettings data))
                  !! name))
    ∧ length (elems (ContainerSpec.Networks spec)) =
        size (default ∅ (NetworkSettings.Networks (InspectData.NetworkSettings data))).
Proof.
  intros HU. exists (spec_of data).
  split; [by apply (ParseInspectJSON_first _ _ rest)|].
  simpl. rewrite elems_appended.
  set (networks := NetworkSettings.Networks _).
  assert (Hperm : (range_map networks).*1 ≡ₚ (map_to_list (default ∅ networks)).*1)
    by (by rewrite range_map_perm).
  split; [done|]. split; [|split].
  - change (map fst (range_map networks)) with ((range_map networks).*1).
    rewrite Hperm. apply NoDup_fst_map_to_list.
  - intros name. change (map fst (range_map networks)) with ((range_map networks).*1).
    rewrite Hperm, list_elem_of_fmap. split.
    + intros ([k v] & -> & Hin). apply elem_of_map_to_list in Hin. by exists v.
    + intros [v Hv]. exists (name, v). split; [done|]. by apply elem_of_map_to_list.
  - change (map fst (range_map networks)) with ((range_map networks).*1).
    by rewrite Hperm, length_fmap, length_map_to_list.
Qed.

Lemma parser_networks_witness :
  JsonModel.Unmarshal (JsonModel.double_quoted networks_doc) = (Some [networks_data], None)
  ∧ ∃ spec,
      parse_text networks_doc = (Some spec, None)
      ∧ NoDup (elems (ContainerSpec.Networks spec))
      ∧ length (elems (ContainerSpec.Networks spec)) = 2.
Proof.
  assert (HU : JsonModel.Unmarshal (JsonModel.double_quoted networks_doc)
               = (Some [networks_data], None))
    by (vm_compute; reflexivity).
  split; [exact HU|].
  destruct (@parser_networks model_Unmarshaler canonical_order _ _ _ HU)
    as (spec & Hparse & _ & Hnodup & _ & Hlength).
  exists spec. split; [exact Hparse|]. split; [exact Hnodup|].
  rewrite Hlength. by vm_compute.
Defined.

(** X2. The devices of the specification are, in the order of the device
    records, the host path and the container path of each joined by a
    colon; the permissions of a record play no part, and no record is
    dropped. *)
Theorem parser_devices `{!Unmarshaler, !MapOrder}
    (jsonData : string) (data : InspectData.t) (rest : list InspectData.t) :
  Unmarshal jsonData = (Some (data :: rest), None) →
  ∃ spec,
    Parser.ParseInspectJSON jsonData = (Some spec, None)
    ∧ elems (ContainerSpec.Devices spec) =
        map (λ d, Device.PathOnHost d +:+ ":" +:+ Device.PathInContainer d)
            (elems (HostConfig.Devices (InspectData.HostConfig data)))
    ∧ len (ContainerSpec.Devices spec) = len (HostConfig.Devices (InspectData.HostConfig data))
    ∧ (ContainerSpec.Devices spec = None ↔
       elems (HostConfig.Devices (InspectData.HostConfig data)) = []).
Proof.
  intros HU. exists (spec_of data).
  split; [by apply (ParseInspectJSON_first _ _ rest)|].
  simpl. set (devices := elems (HostConfig.Devices _)).
  split; [by rewrite elems_appended|].
  split; [unfold len; simpl; by rewrite elems_appended, length_map|].
  by destruct devices.
Qed.

Lemma parser_devices_witness :
  JsonModel.Unmarshal (JsonModel.double_quoted devices_doc) = (Some [devices_data], None)
  ∧ ∃ spec,
      parse_text devices_doc = (Some spec, None)
      ∧ elems (ContainerSpec.Devices spec) = ["/dev/fuse:/dev/fuse"; "/dev/sda:/dev/xvda"].
Proof.
  assert (HU : JsonModel.Unmarshal (JsonModel.double_quoted devices_doc)
               = (Some [devices_data], None))
    by (vm_compute; reflexivity).
  split; [exact HU|].
  destruct (@parser_devices model_Unmarshaler canonical_order _ _ _ HU)
    as (spec & Hparse & Hdevices & _).
  exists spec. split; [exact Hparse|]. by rewrite Hdevices.
Defined.

(** X3. Image, environment, command, entrypoint, labels, working directory
    and extra hosts reach the specification as [json.Unmarshal] left them:
    same elements in the same order, [nil] where they were [nil] and an
    empty slice where they were an empty slice. *)
Theorem parser_copies_fields `{!Unmarshaler, !MapOrder}
    (jsonData : string) (data : InspectData.t) (rest : list InspectData.t) :
  Unmarshal jsonData = (Some (data :: rest), None) →
  ∃ spec,
    Parser.ParseInspectJSON jsonData = (Some spec, None)
    ∧ ContainerSpec.Image spec = Config.Image (InspectData.Config data)
    ∧ ContainerSpec.Env spec = Config.Env (InspectData.Config data)
    ∧ ContainerSpec.Command spec = Config.Cmd (InspectData.Config data)
    ∧ ContainerSpec.EntryPoint spec = Config.Entrypoint (InspectData.Config data)
    ∧ ContainerSpec.Labels spec = Config.Labels (InspectData.Config data)
    ∧ ContainerSpec.WorkingDir spec = Config.WorkingDir (InspectData.Config data)
    ∧ ContainerSpec.ExtraHosts spec = HostConfig.ExtraHosts (InspectData.HostConfig data).
Proof.
  intros HU. exists (spec_of data).
  by split; [apply (ParseInspectJSON_first _ _ rest)|].
Qed.

Lemma parser_copies_fields_witness :
  JsonModel.Unmarshal (JsonModel.double_quoted config_doc) = (Some [config_data], None)
  ∧ ∃ spec,
      parse_text config_doc = (Some spec, None)
      ∧ ContainerSpec.Env spec = Some ["A=1"; "B=2"]
      ∧ ContainerSpec.EntryPoint spec = Some []
      ∧ ContainerSpec.ExtraHosts spec = Some ["db:10.0.0.5"].
Proof.
  assert (HU : JsonModel.Unmarshal (JsonModel.double_quoted config_doc)
               = (Some [config_data], None))
    by (vm_compute; reflexivity).
  split; [exact HU|].
  destruct (@parser_copies_fields model_Unmarshaler canonical_order _ _ _ HU)
    as (spec & Hparse & _ & Henv & _ & Hentry & _ & _ & Hhosts).
  exists spec. split; [exact Hparse|]. by rewrite Henv, Hentry, Hhosts.
Defined.

Lemma spec_of_read_parts `{!MapOrder} (data : InspectData.t) :
  spec_of (read_parts data) = spec_of data.
Proof.
  unfold spec_of, read_parts. simpl. f_equal.
  - f_equal. destruct (InspectData.Mounts data) as [mounts|]; simpl; [|done].
    by rewrite flat_map_map.
  - f_equal. destruct (HostConfig.Devices (InspectData.HostConfig data)) as [devices|];
      simpl; [|done].
    by rewrite map_map.
Qed.

(** X4. The specification depends on the first inspection object only, and
    not on the mode of its mounts, the permissions of its devices or the
    retry count of its restart policy: two documents whose first objects
    agree on everything else yield the same result. *)
Theorem parser_reads_only (decode1 decode2 : Unmarshaler) `{!MapOrder}
    (json1 json2 : string) (data1 data2 : InspectData.t) (rest1 rest2 : list InspectData.t) :
  @Unmarshal decode1 json1 = (Some (data1 :: rest1), None) →
  @Unmarshal decode2 json2 = (Some (data2 :: rest2), None) →
  read_parts data1 = read_parts data2 →
  @Parser.ParseInspectJSON decode1 _ json1 = @Parser.ParseInspectJSON decode2 _ json2.
Proof.
  intros HU1 HU2 Hread.
  rewrite (@ParseInspectJSON_first decode1 _ _ _ _ HU1),
    (@ParseInspectJSON_first decode2 _ _ _ _ HU2).
  by rewrite <- (spec_of_read_parts data1), Hread, spec_of_read_parts.
Qed.

Lemma parser_reads_only_witness :
  JsonModel.Unmarshal (JsonModel.double_quoted unread_doc_a)
    = (Some [unread_data "z" "rwm" 5; named_data "/other"], None)
  ∧ JsonModel.Unmarshal (JsonModel.double_quoted unread_doc_b)
    = (Some [unread_data "" "" 0], None)
  ∧ parse_text unread_doc_a = parse_text unread_doc_b.
Proof.
  assert (HUa : JsonModel.Unmarshal (JsonModel.double_quoted unread_doc_a)
                = (Some [unread_data "z" "rwm" 5; named_data "/other"], None))
    by (vm_compute; reflexivity).
  assert (HUb : JsonModel.Unmarshal (JsonModel.double_quoted unread_doc_b)
                = (Some [unread_data "" "" 0], None))
    by (vm_compute; reflexivity).
  split; [exact HUa|]. split; [exact HUb|].
  exact (@parser_reads_only model_Unmarshaler model_Unmarshaler canonical_order
           _ _ _ _ _ _ HUa HUb eq_refl).
Defined.

Lemma has_byte_app_r (c : ascii) (a b : string) : has_byte c b → has_byte c (a +:+ b).
Proof.
  unfold has_byte. intros Hb. induction a as [|x a IH]; [done|].
  rewrite string_app_cons. simpl. by right.
Qed.

Lemma has_colon (a b : string) : has_byte ":" (a +:+ ":" +:+ b).
Proof. apply has_byte_app_r. by left. Qed.

(** X5. Every port entry of the specification is a non-empty host port, a
    colon, and a container port without slash; every volume entry and
    every device entry has a colon. *)
Theorem parser_entry_shapes `{!Unmarshaler, !MapOrder}
    (jsonData : string) (data : InspectData.t) (rest : list InspectData.t) :
  Unmarshal jsonData = (Some (data :: rest), None) →
  ∃ spec,
    Parser.ParseInspectJSON jsonData = (Some spec, None)
    ∧ (∀ p, In p (elems (ContainerSpec.Ports spec)) →
         ∃ host container,
           p = host +:+ ":" +:+ container ∧ host ≠ "" ∧ ¬ has_byte "/" container)
    ∧ (∀ v, In v (elems (ContainerSpec.Volumes spec)) → has_byte ":" v)
    ∧ (∀ d, In d (elems (ContainerSpec.Devices spec)) → has_byte ":" d).
Proof.
  intros HU. exists (spec_of data).
  split; [by apply (ParseInspectJSON_first _ _ rest)|].
  simpl. rewrite !elems_appended. split; [|split].
  - intros p Hp. apply in_flat_map in Hp as ([key bindings] & _ & Hp).
    unfold port_entries in Hp. apply in_flat_map in Hp as (b & _ & Hp).
    unfold binding_entries in Hp. simpl in Hp.
    destruct (Parser.nonempty (PortBinding.HostPort b)) eqn:Hhost; [|done].
    destruct Hp as [<-|[]].
    exists (PortBinding.HostPort b), (before_slash key).
    split; [done|]. split; [by apply nonempty_true|].
    destruct (before_slash_spec key) as (tail & _ & _ & Hfree).
    intros Hslash. by apply (Hfree "/"%char).
  - intros v Hv. apply in_flat_map in Hv as (m & _ & Hv).
    unfold volume_entries in Hv. destruct (is_bind_or_volume m); [|done].
    destruct Hv as [<-|[]]. apply has_colon.
  - intros d Hd. apply in_map_iff in Hd as (device & <- & _). apply has_colon.
Qed.

Lemma parser_entry_shapes_witness :
  JsonModel.Unmarshal (JsonModel.double_quoted ports_doc) = (Some [ports_data], None)
  ∧ ∃ spec,
      parse_text ports_doc = (Some spec, None)
      ∧ ∀ p, In p (elems (ContainerSpec.Ports spec)) →
          ∃ host container,
            p = host +:+ ":" +:+ container ∧ host ≠ "" ∧ ¬ has_byte "/" container.
Proof.
  assert (HU : JsonModel.Unmarshal (JsonModel.double_quoted ports_doc) = (Some [ports_data], None))
    by (vm_compute; reflexivity).
  split; [exact HU|].
  destruct (@parser_entry_shapes model_Unmarshaler canonical_order _ _ _ HU)
    as (spec & Hparse & Hports & _).
  exists spec. split; [exact Hparse | exact Hports].
Defined.

(** ** The generator: size and changes of the specification *)

Lemma length_flagged (flag : string) (values : list string) :
  length (flagged flag values) = 2 * length values.
Proof. unfold flagged. induction values as [|v values IH]; simpl; [done | lia]. Qed.

(** X6. The slice the generator returns is never [nil]: it holds two tokens
    for the name when one is chosen, two for each environment entry,
    volume, port, network, label, device and extra host, two each for a
    non-empty working directory, restart policy and entrypoint, then the
    image, then the command. So the image is found at twice the number of
    flags, and the length is that plus one plus the length of the command. *)
Theorem generator_token_count `{!MapOrder}
    (spec : ContainerSpec.t) (opts : option RunOptions.t) :
  ∃ flags,
    Generator.GenerateRunCommand spec opts =
      Some (flags ++ ContainerSpec.Image spec :: elems (ContainerSpec.Command spec))
    ∧ length flags = 2 * flag_count spec opts
    ∧ elems (Generator.GenerateRunCommand spec opts) !! (2 * flag_count spec opts)
      = Some (ContainerSpec.Image spec)
    ∧ len (Generator.GenerateRunCommand spec opts)
      = 2 * flag_count spec opts + 1 + len (ContainerSpec.Command spec).
Proof.
  set (flags := name_tokens spec opts ++ tokens_before_labels spec ++
                flat_map label_tokens (range_map (ContainerSpec.Labels spec)) ++
                flagged "--device" (elems (ContainerSpec.Devices spec)) ++
                flagged "--add-host" (elems (ContainerSpec.ExtraHosts spec)) ++
                (if Generator.nonempty (ContainerSpec.Restart spec)
                 then ["--restart"; ContainerSpec.Restart spec] else []) ++
                match elems (ContainerSpec.EntryPoint spec) with
                | entry0 :: _ => ["--entrypoint"; entry0]
                | [] => []
                end).
  assert (Hout : Generator.GenerateRunCommand spec opts =
            Some (flags ++ ContainerSpec.Image spec :: elems (ContainerSpec.Command spec))).
  { rewrite GenerateRunCommand_tokens. unfold flags, tokens_after_labels.
    by rewrite <- !app_assoc. }
  assert (Hlen : length flags = 2 * flag_count spec opts).
  { unfold flags, tokens_before_labels, name_tokens, flag_count, len.
    rewrite !length_app, !length_flagged, length_label_tokens, length_range_labels.
    destruct (Generator.nonempty (chosen_name spec opts)),
      (Generator.nonempty (ContainerSpec.WorkingDir spec)),
      (Generator.nonempty (ContainerSpec.Restart spec)),
      (elems (ContainerSpec.EntryPoint spec)); simpl; lia. }
  exists flags. rewrite Hout. split; [done|]. split; [done|]. split.
  - rewrite <- Hlen. by apply (list_lookup_middle flags).
  - rewrite <- Hlen. unfold len at 1. change (elems (Some ?l)) with l.
    rewrite length_app. unfold len. simpl. lia.
Qed.

Lemma generator_token_count_example :
  @Generator.GenerateRunCommand canonical_order app_spec (Some dev_opts)
  = Some ["--name"; "dev"; "-e"; "X=1"; "-v"; "/a:/b"; "-p"; "80:80"; "alpine"; "echo"; "hi"]
  ∧ flag_count app_spec (Some dev_opts) = 4.
Proof. by vm_compute. Qed.

(** X8. Appending a volume to the specification, or a port, as the manager
    does, adds one [-v] pair after the volumes or one [-p] pair after the
    ports, and leaves every other token in place. *)
Theorem generator_added_entries `{!MapOrder}
    (spec : ContainerSpec.t) (opts : option RunOptions.t) (volume port : string) :
  ∃ before after,
    Generator.GenerateRunCommand spec opts =
      Some (before ++ flagged "-p" (elems (ContainerSpec.Ports spec)) ++ after)
    ∧ Generator.GenerateRunCommand
        (ContainerSpec.set_Volumes (append (ContainerSpec.Volumes spec) [volume]) spec) opts =
      Some (before ++ ["-v"; volume] ++
            flagged "-p" (elems (ContainerSpec.Ports spec)) ++ after)
    ∧ Generator.GenerateRunCommand
        (ContainerSpec.set_Ports (append (ContainerSpec.Ports spec) [port]) spec) opts =
      Some (before ++ flagged "-p" (elems (ContainerSpec.Ports spec)) ++
            ["-p"; port] ++ after)
    ∧ before = name_tokens spec opts ++ flagged "-e" (elems (ContainerSpec.Env spec)) ++
               flagged "-v" (elems (ContainerSpec.Volumes spec)).
Proof.
  exists (name_tokens spec opts ++ flagged "-e" (elems (ContainerSpec.Env spec)) ++
          flagged "-v" (elems (ContainerSpec.Volumes spec))),
    (flagged "--network" (elems (ContainerSpec.Networks spec)) ++
     (if Generator.nonempty (ContainerSpec.WorkingDir spec)
      then ["-w"; ContainerSpec.WorkingDir spec] else []) ++
     flat_map label_tokens (range_map (ContainerSpec.Labels spec)) ++
     tokens_after_labels spec).
  rewrite !GenerateRunCommand_tokens.
  unfold tokens_before_labels, tokens_after_labels, name_tokens, chosen_name, flagged.
  destruct spec; simpl.
  rewrite !flat_map_app. simpl.
  repeat split; by rewrite <- ?app_assoc.
Qed.

Lemma Join_flatten (xs ys zs : list string) (sep : string) :
  xs ≠ [] → ys ≠ [] →
  Strings.Join (xs ++ Strings.Join ys sep :: zs) sep = Strings.Join (xs ++ ys ++ zs) sep.
Proof.
  intros Hxs Hys. destruct (decide (zs = [])) as [->|Hzs].
  - rewrite app_nil_r. by apply Join_joined.
  - assert (Hxy : xs ++ ys ≠ []) by (by destruct xs).
    assert (Hxj : xs ++ [Strings.Join ys sep] ≠ []) by (by destruct xs).
    rewrite (app_assoc xs ys zs), (Join_app (xs ++ ys) zs) by done.
    change (xs ++ Strings.Join ys sep :: zs) with (xs ++ [Strings.Join ys sep] ++ zs).
    rewrite (app_assoc xs [Strings.Join ys sep] zs), (Join_app _ zs) by done.
    by rewrite Join_joined.
Qed.

(** Fields that are not quoted read the same joined as text or as tokens. *)
Lemma Join_unquoted `{!Quoter} (es : list emitted) (xs : list string) :
  xs ≠ [] →
  Forall (λ e, match e with Flag _ _ | Word _ => True | _ => False end) es →
  Strings.Join (xs ++ map emitted_text es) " " =
  Strings.Join (xs ++ flat_map emitted_tokens es) " ".
Proof.
  intros Hxs Hes. revert xs Hxs.
  induction Hes as [|e es He _ IH]; intros xs Hxs; [done|].
  destruct e as [f v| | |w]; try done; simpl.
  - change (f +:+ " " +:+ v) with (Strings.Join [f; v] " ").
    rewrite (Join_flatten xs [f; v]) by done.
    rewrite (app_assoc xs [f; v]), IH by (by destruct xs).
    by rewrite <- app_assoc.
  - change (xs ++ w :: map emitted_text es) with (xs ++ [w] ++ map emitted_text es).
    rewrite (app_assoc xs [w]), IH by (by destruct xs).
    by rewrite <- app_assoc.
Qed.

(** X7. For a specification without environment entries and without
    labels, whatever [%q] does, the textual variant is the words docker run
    and the tokens of the slice variant joined by single spaces. *)
Theorem text_is_joined_tokens `{!MapOrder, !Quoter}
    (spec : ContainerSpec.t) (opts : option RunOptions.t) :
  elems (ContainerSpec.Env spec) = [] →
  labels_of spec = ∅ →
  ∃ tokens,
    Generator.GenerateRunCommand spec opts = Some tokens
    ∧ GeneratorText.GenerateRunCommand spec opts =
        Strings.Join ("docker run" :: tokens) " ".
Proof.
  intros Henv Hlabels.
  exists (flat_map emitted_tokens (emission spec opts)).
  split; [by rewrite GenerateRunCommand_tokens, emission_tokens|].
  rewrite GenerateRunCommand_text.
  apply (Join_unquoted _ ["docker run"]); [done|].
  assert (Hrange : range_map (ContainerSpec.Labels spec) = []).
  { apply Permutation_nil_r. rewrite range_map_perm. fold (labels_of spec).
    by rewrite Hlabels, map_to_list_empty. }
  unfold emission. rewrite Henv, Hrange. simpl.
  repeat (apply Forall_app; split);
    try (apply Forall_forall; intros e He; apply list_elem_of_fmap in He as (v & -> & _); done);
    try (by repeat constructor).
  - by destruct (Generator.nonempty _); repeat constructor.
  - by destruct (Generator.nonempty _); repeat constructor.
  - by destruct (Generator.nonempty _); repeat constructor.
  - by destruct (elems (ContainerSpec.EntryPoint spec)); repeat constructor.
  - constructor; [done|].
    apply Forall_forall; intros e He; apply list_elem_of_fmap in He as (v & -> & _); done.
Qed.

Lemma text_is_joined_tokens_witness :
  elems (ContainerSpec.Env plain_spec) = []
  ∧ labels_of plain_spec = ∅
  ∧ @GeneratorText.GenerateRunCommand canonical_order QuoteModel.Quote plain_spec None =
      "docker run --name web -v /a:/b -p 80:80 --network bridge -w /srv --restart always --entrypoint /entry.sh nginx nginx -g daemon off;".
Proof.
  split; [done|]. split; [done|].
  destruct (@text_is_joined_tokens canonical_order QuoteModel.Quote plain_spec None
              eq_refl eq_refl) as (tokens & Htokens & ->).
  assert (Hrun : @Generator.GenerateRunCommand canonical_order plain_spec None =
    Some ["--name"; "web"; "-v"; "/a:/b"; "-p"; "80:80"; "--network"; "bridge";
          "-w"; "/srv"; "--restart"; "always"; "--entrypoint"; "/entry.sh";
          "nginx"; "nginx"; "-g"; "daemon off;"]) by (by vm_compute).
  rewrite Hrun in Htokens. injection Htokens as <-. by vm_compute.
Defined.

(** ** The manager *)

Lemma ParseInspectJSON_cases `{!Unmarshaler, !MapOrder} (jsonData : string) :
  (∃ spec, Parser.ParseInspectJSON jsonData = (Some spec, None))
  ∨ (∃ err, Parser.ParseInspectJSON jsonData = (None, Some err)).
Proof.
  destruct (Unmarshal jsonData) as [arr [err|]] eqn:HU.
  - right. eexists. by apply (ParseInspectJSON_error _ arr).
  - destruct arr as [[|data rest]|].
    + right. eexists. by apply (ParseInspectJSON_empty _ (Some [])).
    + left. exists (spec_of data). by apply (ParseInspectJSON_first _ data rest).
    + right. eexists. by apply (ParseInspectJSON_empty _ None).
Qed.

(** X9. [GetContainerConfig] runs one command, docker inspect with the name
    of the container. It returns a specification and no error exactly when
    the command succeeds and the parser accepts its output; when the
    command fails it returns the error of the command with what the
    command wrote to its standard error, when the parser fails the error of
    the parser; and it returns either a specification or an error. *)
Theorem GetContainerConfig_outcomes `{!System, !Unmarshaler, !MapOrder}
    (m : Manager.t) (h : list (list string)) :
  let inspect := ["docker"; "inspect"; Manager.containerName m] in
  let out := run_command h inspect in
  (Manager.GetContainerConfig m h).2 = h ++ [inspect]
  ∧ (∀ spec, (Manager.GetContainerConfig m h).1 = (Some spec, None)
       ↔ Exec.Err out = None
         ∧ Parser.ParseInspectJSON (Exec.Stdout out) = (Some spec, None))
  ∧ (∀ err, Exec.Err out = Some err →
       (Manager.GetContainerConfig m h).1 =
         (None, Some (Manager.Errorf
                        ("failed to inspect container '" +:+ Manager.containerName m +:+ "': ")
                        (Manager.ofError err) (", stderr: " +:+ Exec.Stderr out))))
  ∧ (∀ err, Exec.Err out = None →
       (Parser.ParseInspectJSON (Exec.Stdout out)).2 = Some err →
       (Manager.GetContainerConfig m h).1 =
         (None, Some (Manager.Errorf
                        ("failed to parse inspect JSON for container '" +:+
                         Manager.containerName m +:+ "': ")
                        (Manager.ofError err) "")))
  ∧ (is_Some (Manager.GetContainerConfig m h).1.1
     ↔ (Manager.GetContainerConfig m h).1.2 = None).
Proof.
  intros inspect out.
  unfold Manager.GetContainerConfig, Manager.bind, Manager.Run, Manager.ret.
  fold inspect. fold out.
  destruct (Exec.Err out) as [e|] eqn:Herr; simpl.
  - split; [done|]. split; [|split; [|split]].
    + intros spec. split; [done | by intros [? _]].
    + by intros err [= ->].
    + done.
    + split; [by intros [? ?] | done].
  - destruct (ParseInspectJSON_cases (Exec.Stdout out)) as [[spec ->]|[err ->]]; simpl.
    + split; [done|]. split; [|split; [|split]].
      * intros spec'. split; [by intros [= ->] | by intros [_ [= ->]]].
      * done.
      * done.
      * split; [done | by eexists].
    + split; [done|]. split; [|split; [|split]].
      * intros spec. split; [done | by intros [_ ?]].
      * done.
      * by intros err' _ [= ->].
      * split; [by intros [? ?] | done].
Qed.

Lemma GetContainerConfig_example :
  @Manager.GetContainerConfig friendly_system model_Unmarshaler canonical_order app_manager []
  = ((Some minimal_spec, None), [["docker"; "inspect"; "app"]]).
Proof. by vm_compute. Qed.

Section ManagerFacts.
Context `{!System, !Unmarshaler, !MapOrder, !Manager.Waiter}.
Implicit Types (m : Manager.t) (h : list (list string)) (spec : ContainerSpec.t).

Lemma GetContainerConfig_cases m h :
  (∃ spec, Manager.GetContainerConfig m h =
             ((Some spec, None), h ++ [["docker"; "inspect"; Manager.containerName m]]))
  ∨ (∃ err, Manager.GetContainerConfig m h =
              ((None, Some err), h ++ [["docker"; "inspect"; Manager.containerName m]])).
Proof.
  unfold Manager.GetContainerConfig, Manager.bind, Manager.Run, Manager.ret.
  destruct (Exec.Err _) as [e|]; [right; by eexists|].
  destruct (ParseInspectJSON_cases (Exec.Stdout
    (run_command h ["docker"; "inspect"; Manager.containerName m]))) as [[spec ->]|[err ->]].
  - left. by eexists.
  - right. by eexists.
Qed.

(** Step 2 of [CreateDevContainer]. *)
Lemma dev_spec_step m (enableDebugger : bool) spec :
  (let spec :=
     if Manager.nonempty (Manager.devSwapDir m)
     then ContainerSpec.set_Volumes
            (append (ContainerSpec.Volumes spec) [Manager.devSwapDir m +:+ ":/dev-swap"]) spec
     else spec in
   if enableDebugger
   then ContainerSpec.set_Ports (append (ContainerSpec.Ports spec) ["2345:2345"]) spec
   else spec) = dev_spec m enableDebugger spec.
Proof.
  unfold dev_spec. destruct spec, (Manager.nonempty (Manager.devSwapDir m)), enableDebugger;
    reflexivity.
Qed.

Lemma installDebugger_extends m (name : string) h :
  ∃ more, (Manager.installDebugger m name h).2 = h ++ more.
Proof.
  unfold Manager.installDebugger, Manager.bind, Manager.Run, Manager.ret.
  destruct (Exec.Err _); [by eexists|].
  destruct (Exec.Err _); [rewrite <- app_assoc; by eexists|].
  destruct (Exec.Err _); [rewrite <- !app_assoc; by eexists|].
  destruct (Manager.strings_Contains _ _); rewrite <- !app_assoc; by eexists.
Qed.

(** The steps of [CreateDevContainer] after a specification was obtained. *)
Lemma CreateDevContainer_steps m (dev : string) (enableDebugger : bool) (script : string)
    h h1 spec (tokens : list string) :
  Manager.GetContainerConfig m h = ((Some spec, None), h1) →
  Generator.GenerateRunCommand (dev_spec m enableDebugger spec)
    (Some (RunOptions.mk dev)) = Some tokens →
  Manager.CreateDevContainer m dev enableDebugger script h =
  let run := "docker" :: "run" :: "-d" :: tokens in
  match Exec.Err (run_command h1 run) with
  | Some err =>
      (Manager.Returns (Some (Manager.Errorf "failed to run dev container: "
         (Manager.Errorf "docker run failed: " (Manager.ofError err)
            (", stderr: " +:+ Exec.Stderr (run_command h1 run))) "")),
       h1 ++ [run])
  | None =>
      match Manager.waitForContainer m dev Manager.ten_seconds (h1 ++ [run]) with
      | (Some err, hw) =>
          (Manager.Returns (Some (Manager.Errorf "container failed to start: " err "")), hw)
      | (None, hw) =>
          let hd := if enableDebugger then (Manager.installDebugger m dev hw).2 else hw in
          (Manager.Returns None,
           if Manager.nonempty script
           then hd ++ [["docker"; "exec"; dev; "sh"; "-c"; script]]
           else hd)
      end
  end.
Proof.
  intros Hconfig Htokens.
  unfold Manager.CreateDevContainer, Manager.bind at 1. rewrite Hconfig.
  cbv zeta. rewrite dev_spec_step, Htokens.
  unfold Manager.executeDockerRun, Manager.bind, Manager.Run, Manager.ret.
  change (elems (append (Some ["run"; "-d"]) (elems (Some tokens))))
    with (elems (append (Some ["run"; "-d"]) tokens)).
  rewrite elems_append.
  change ("docker" :: elems (Some ["run"; "-d"]) ++ tokens)
    with ("docker" :: "run" :: "-d" :: tokens).
  destruct (Exec.Err (run_command h1 _)) as [err|]; [done|].
  destruct (Manager.waitForContainer m dev Manager.ten_seconds _) as [[werr|] hw]; [done|].
  destruct enableDebugger.
  - destruct (Manager.installDebugger m dev hw) as [derr hd]. simpl.
    unfold Manager.executeInContainer, Manager.bind, Manager.Run, Manager.ret.
    destruct (Manager.nonempty script); [by destruct (Exec.Err _) | done].
  - simpl. unfold Manager.executeInContainer, Manager.bind, Manager.Run, Manager.ret.
    destruct (Manager.nonempty script); [by destruct (Exec.Err _) | done].
Qed.

Lemma dev_tokens m (dev : string) (enableDebugger : bool) spec :
  Generator.GenerateRunCommand (dev_spec m enableDebugger spec) (Some (RunOptions.mk dev)) =
  Some (name_tokens spec (Some (RunOptions.mk dev)) ++
        flagged "-e" (elems (ContainerSpec.Env spec)) ++
        flagged "-v" (elems (ContainerSpec.Volumes spec) ++
                      (if Manager.nonempty (Manager.devSwapDir m)
                       then [Manager.devSwapDir m +:+ ":/dev-swap"] else [])) ++
        flagged "-p" (elems (ContainerSpec.Ports spec) ++
                      (if enableDebugger then ["2345:2345"] else [])) ++
        flagged "--network" (elems (ContainerSpec.Networks spec)) ++
        (if Generator.nonempty (ContainerSpec.WorkingDir spec)
         then ["-w"; ContainerSpec.WorkingDir spec] else []) ++
        flat_map label_tokens (range_map (ContainerSpec.Labels spec)) ++
        tokens_after_labels spec).
Proof.
  rewrite GenerateRunCommand_tokens.
  unfold tokens_before_labels, tokens_after_labels, name_tokens, chosen_name, dev_spec.
  simpl. by rewrite !elems_append, <- !app_assoc.
Qed.

End ManagerFacts.

(** X10. [CreateDevContainer] never dereferences a [nil] specification:
    whatever the commands do, it returns. *)
Theorem CreateDevContainer_returns `{!System, !Unmarshaler, !MapOrder, !Manager.Waiter}
    (m : Manager.t) (dev : string) (enableDebugger : bool) (script : string)
    (h : list (list string)) :
  ∃ err, (Manager.CreateDevContainer m dev enableDebugger script h).1 = Manager.Returns err.
Proof.
  destruct (GetContainerConfig_cases m h) as [[spec Hconfig]|[err Hconfig]].
  - rewrite (CreateDevContainer_steps _ _ _ _ _ _ _ _ Hconfig (dev_tokens _ _ _ _)).
    cbv zeta. destruct (Exec.Err _); [by eexists|].
    destruct (Manager.waitForContainer _ _ _ _) as [[werr|] hw]; by eexists.
  - unfold Manager.CreateDevContainer, Manager.bind at 1. rewrite Hconfig. by eexists.
Qed.

(** X11. When the configuration cannot be obtained, [CreateDevContainer]
    returns that error under the words failed to get container config, and
    docker inspect is the only command it has run: no container is
    created. *)
Theorem CreateDevContainer_config_failure `{!System, !Unmarshaler, !MapOrder, !Manager.Waiter}
    (m : Manager.t) (dev : string) (enableDebugger : bool) (script : string)
    (h : list (list string)) (err : Manager.merror) :
  (Manager.GetContainerConfig m h).1.2 = Some err →
  Manager.CreateDevContainer m dev enableDebugger script h =
    (Manager.Returns (Some (Manager.Errorf "failed to get container config: " err "")),
     h ++ [["docker"; "inspect"; Manager.containerName m]]).
Proof.
  intros Herr.
  destruct (GetContainerConfig_cases m h) as [[spec Hconfig]|[err' Hconfig]];
    rewrite Hconfig in Herr; simpl in Herr; [done|].
  injection Herr as ->.
  unfold Manager.CreateDevContainer, Manager.bind at 1. by rewrite Hconfig.
Qed.

Lemma CreateDevContainer_config_failure_witness :
  (@Manager.GetContainerConfig hostile_system model_Unmarshaler canonical_order
     app_manager []).1.2
  = Some (Manager.Errorf "failed to inspect container 'app': "
            (Manager.ofError (errorString "exit status 1")) ", stderr: no such container")
  ∧ (@Manager.CreateDevContainer hostile_system model_Unmarshaler canonical_order instant_wait
       app_manager "app-dev" true "true" []).2 = [["docker"; "inspect"; "app"]].
Proof.
  assert (Herr : (@Manager.GetContainerConfig hostile_system model_Unmarshaler canonical_order
                    app_manager []).1.2
    = Some (Manager.Errorf "failed to inspect container 'app': "
              (Manager.ofError (errorString "exit status 1")) ", stderr: no such container"))
    by (by vm_compute).
  split; [exact Herr|].
  by rewrite (@CreateDevContainer_config_failure hostile_system model_Unmarshaler
                canonical_order instant_wait app_manager "app-dev" true "true" [] _ Herr).
Defined.

(** X12. After docker inspect, the command [CreateDevContainer] runs is
    docker run -d followed by the tokens of the generator: the name of the
    dev container, the inspected environment, the inspected volumes with
    the dev-swap volume after them when a dev-swap directory is set, the
    inspected ports with 2345:2345 after them when the debugger is enabled,
    and everything else as inspected. Here the wait only runs commands. *)
Theorem CreateDevContainer_run_command `{!System, !Unmarshaler, !MapOrder, !Manager.Waiter}
    (m : Manager.t) (dev : string) (enableDebugger : bool) (script : string)
    (h h1 : list (list string)) (spec : ContainerSpec.t) :
  Manager.GetContainerConfig m h = ((Some spec, None), h1) →
  (∀ h', ∃ more, (Manager.waitForContainer m dev Manager.ten_seconds h').2 = h' ++ more) →
  h1 = h ++ [["docker"; "inspect"; Manager.containerName m]]
  ∧ (Manager.CreateDevContainer m dev enableDebugger script h).2 !! length h1 =
    Some (["docker"; "run"; "-d"] ++
          name_tokens spec (Some (RunOptions.mk dev)) ++
          flagged "-e" (elems (ContainerSpec.Env spec)) ++
          flagged "-v" (elems (ContainerSpec.Volumes spec) ++
                        (if Manager.nonempty (Manager.devSwapDir m)
                         then [Manager.devSwapDir m +:+ ":/dev-swap"] else [])) ++
          flagged "-p" (elems (ContainerSpec.Ports spec) ++
                        (if enableDebugger then ["2345:2345"] else [])) ++
          flagged "--network" (elems (ContainerSpec.Networks spec)) ++
          (if Generator.nonempty (ContainerSpec.WorkingDir spec)
           then ["-w"; ContainerSpec.WorkingDir spec] else []) ++
          flat_map label_tokens (range_map (ContainerSpec.Labels spec)) ++
          tokens_after_labels spec).
Proof.
  intros Hconfig Hwait. split.
  { destruct (GetContainerConfig_cases m h) as [[spec' Hc]|[err Hc]];
      rewrite Hc in Hconfig; by injection Hconfig. }
  rewrite (CreateDevContainer_steps _ _ _ _ _ _ _ _ Hconfig (dev_tokens _ _ _ _)).
  cbv zeta. set (run := "docker" :: "run" :: "-d" :: _).
  assert (Hhere : ∀ more, ((h1 ++ [run]) ++ more) !! length h1 = Some run).
  { intros more. rewrite <- app_assoc. by apply list_lookup_middle. }
  destruct (Exec.Err _); [exact (list_lookup_middle h1 [] run _ eq_refl)|].
  destruct (Hwait (h1 ++ [run])) as [more Hw].
  destruct (Manager.waitForContainer _ _ _ _) as [[werr|] hw]; simpl in Hw; subst hw;
    [exact (Hhere more)|].
  cbv zeta. cbn [snd].
  assert (Hd : ∃ more', (if enableDebugger then (Manager.installDebugger m dev
                            ((h1 ++ [run]) ++ more)).2 else (h1 ++ [run]) ++ more)
                        = (h1 ++ [run]) ++ more').
  { destruct enableDebugger; [|by eexists].
    destruct (installDebugger_extends m dev ((h1 ++ [run]) ++ more)) as [more' ->].
    rewrite <- app_assoc. by eexists. }
  destruct Hd as [more' ->].
  destruct (Manager.nonempty script); [rewrite <- app_assoc|]; exact (Hhere _).
Qed.

Lemma CreateDevContainer_run_command_witness :
  @Manager.GetContainerConfig friendly_system model_Unmarshaler canonical_order app_manager []
    = ((Some minimal_spec, None), [["docker"; "inspect"; "app"]])
  ∧ (∀ h', ∃ more, (instant_wait app_manager "app-dev" Manager.ten_seconds h').2 = h' ++ more)
  ∧ (@Manager.CreateDevContainer friendly_system model_Unmarshaler canonical_order instant_wait
       app_manager "app-dev" true "" []).2 !! 1 =
    Some ["docker"; "run"; "-d"; "--name"; "app-dev"; "-v"; "/src:/dev-swap";
          "-p"; "2345:2345"; "alpine"].
Proof.
  assert (Hconfig : @Manager.GetContainerConfig friendly_system model_Unmarshaler
                      canonical_order app_manager []
    = ((Some minimal_spec, None), [["docker"; "inspect"; "app"]])) by (by vm_compute).
  assert (Hwait : ∀ h', ∃ more,
            (instant_wait app_manager "app-dev" Manager.ten_seconds h').2 = h' ++ more).
  { intros h'. exists []. by rewrite app_nil_r. }
  split; [exact Hconfig|]. split; [exact Hwait|].
  destruct (@CreateDevContainer_run_command friendly_system model_Unmarshaler canonical_order
              instant_wait app_manager "app-dev" true "" [] _ _ Hconfig Hwait) as [_ Hrun].
  exact Hrun.
Defined.

(** X13. When docker run fails, [CreateDevContainer] returns its error with
    what it wrote to its standard error, and runs nothing after it: no
    wait, no debugger, no script. *)
Theorem CreateDevContainer_run_failure `{!System, !Unmarshaler, !MapOrder, !Manager.Waiter}
    (m : Manager.t) (dev : string) (enableDebugger : bool) (script : string)
    (h h1 : list (list string)) (spec : ContainerSpec.t) (tokens : list string) (err : error) :
  Manager.GetContainerConfig m h = ((Some spec, None), h1) →
  Generator.GenerateRunCommand (dev_spec m enableDebugger spec)
    (Some (RunOptions.mk dev)) = Some tokens →
  Exec.Err (run_command h1 ("docker" :: "run" :: "-d" :: tokens)) = Some err →
  Manager.CreateDevContainer m dev enableDebugger script h =
    (Manager.Returns (Some (Manager.Errorf "failed to run dev container: "
       (Manager.Errorf "docker run failed: " (Manager.ofError err)
          (", stderr: " +:+
           Exec.Stderr (run_command h1 ("docker" :: "run" :: "-d" :: tokens)))) "")),
     h1 ++ ["docker" :: "run" :: "-d" :: tokens]).
Proof.
  intros Hconfig Htokens Herr.
  rewrite (CreateDevContainer_steps _ _ _ _ _ _ _ _ Hconfig Htokens). cbv zeta.
  by rewrite Herr.
Qed.

Lemma CreateDevContainer_run_failure_witness :
  @Manager.CreateDevContainer run_failing_system model_Unmarshaler canonical_order instant_wait
    app_manager "app-dev" true "true" [] =
  (Manager.Returns (Some (Manager.Errorf "failed to run dev container: "
     (Manager.Errorf "docker run failed: " (Manager.ofError (errorString "exit status 125"))
        ", stderr: name already in use") "")),
   [["docker"; "inspect"; "app"];
    ["docker"; "run"; "-d"; "--name"; "app-dev"; "-v"; "/src:/dev-swap";
     "-p"; "2345:2345"; "alpine"]]).
Proof.
  apply (@CreateDevContainer_run_failure run_failing_system model_Unmarshaler canonical_order
           instant_wait app_manager "app-dev" true "true" [] [["docker"; "inspect"; "app"]]
           minimal_spec); by vm_compute.
Defined.

(** X14. Once the container runs and the wait succeeds, [CreateDevContainer]
    returns no error, whatever comes of installing the debugger and of the
    injected script; a non-empty script is the last command it runs. *)
Theorem CreateDevContainer_tolerates_exec_failures
    `{!System, !Unmarshaler, !MapOrder, !Manager.Waiter}
    (m : Manager.t) (dev : string) (enableDebugger : bool) (script : string)
    (h h1 : list (list string)) (spec : ContainerSpec.t) (tokens : list string) :
  Manager.GetContainerConfig m h = ((Some spec, None), h1) →
  Generator.GenerateRunCommand (dev_spec m enableDebugger spec)
    (Some (RunOptions.mk dev)) = Some tokens →
  Exec.Err (run_command h1 ("docker" :: "run" :: "-d" :: tokens)) = None →
  (Manager.waitForContainer m dev Manager.ten_seconds
     (h1 ++ ["docker" :: "run" :: "-d" :: tokens])).1 = None →
  (Manager.CreateDevContainer m dev enableDebugger script h).1 = Manager.Returns None
  ∧ (script ≠ "" →
     last (Manager.CreateDevContainer m dev enableDebugger script h).2 =
       Some ["docker"; "exec"; dev; "sh"; "-c"; script])
  ∧ (script = "" → enableDebugger = false →
     (Manager.CreateDevContainer m dev enableDebugger script h).2 =
     (Manager.waitForContainer m dev Manager.ten_seconds
        (h1 ++ ["docker" :: "run" :: "-d" :: tokens])).2).
Proof.
  intros Hconfig Htokens Hrun Hwait.
  rewrite (CreateDevContainer_steps _ _ _ _ _ _ _ _ Hconfig Htokens). cbv zeta.
  rewrite Hrun.
  destruct (Manager.waitForContainer _ _ _ _) as [werr hw]. simpl in Hwait. subst werr.
  simpl. split; [done|]. split.
  - intros Hscript. unfold Manager.nonempty.
    apply String.eqb_neq in Hscript as ->. simpl. apply last_snoc.
  - by intros -> ->.
Qed.

Lemma CreateDevContainer_tolerates_exec_failures_witness :
  (@Manager.CreateDevContainer exec_failing_system model_Unmarshaler canonical_order
     instant_wait app_manager "app-dev" true "exit 1" []).1 = Manager.Returns None
  ∧ last (@Manager.CreateDevContainer exec_failing_system model_Unmarshaler canonical_order
            instant_wait app_manager "app-dev" true "exit 1" []).2
    = Some ["docker"; "exec"; "app-dev"; "sh"; "-c"; "exit 1"]
  ∧ Exec.Err (exec_failing_system [] ["docker"; "exec"; "app-dev"; "sh"; "-c"; "exit 1"])
    = Some (errorString "exit status 126").
Proof.
  assert (Hconfig : @Manager.GetContainerConfig exec_failing_system model_Unmarshaler
                      canonical_order app_manager []
    = ((Some minimal_spec, None), [["docker"; "inspect"; "app"]])) by (by vm_compute).
  assert (Htokens : @Generator.GenerateRunCommand canonical_order
                      (dev_spec app_manager true minimal_spec) (Some (RunOptions.mk "app-dev"))
    = Some ["--name"; "app-dev"; "-v"; "/src:/dev-swap"; "-p"; "2345:2345"; "alpine"])
    by (by vm_compute).
  destruct (@CreateDevContainer_tolerates_exec_failures exec_failing_system model_Unmarshaler
              canonical_order instant_wait app_manager "app-dev" true "exit 1" [] _ _ _
              Hconfig Htokens eq_refl eq_refl)
    as (Hreturns & Hlast & _).
  split; [exact Hreturns|]. split; [by apply Hlast | by vm_compute].
Defined.

Lemma HasPrefix_cons (c x : ascii) (s p : string) :
  Strings.HasPrefix (String c s) (String x p) =
  if Ascii.eqb x c then Strings.HasPrefix s p else false.
Proof. reflexivity. Qed.

Lemma HasPrefix_spec (s p : string) :
  Strings.HasPrefix s p = true ↔ ∃ b, s = p +:+ b.
Proof.
  revert s. induction p as [|x p IH]; intros s.
  - split; [by exists s | by destruct s].
  - destruct s as [|c s].
    + split; [done | by intros [b ?]].
    + rewrite HasPrefix_cons. destruct (Ascii.eqb_spec x c) as [->|Hne].
      * rewrite IH. split; intros [b Hb]; exists b.
        -- by rewrite string_app_cons, Hb.
        -- rewrite string_app_cons in Hb. by injection Hb.
      * split; [done|]. intros [b Hb]. rewrite string_app_cons in Hb.
        injection Hb as -> _. done.
Qed.

Lemma strings_Contains_unfold (s sub : string) :
  Manager.strings_Contains s sub =
  Strings.HasPrefix s sub ||
  match s with
  | String _ s' => Manager.strings_Contains s' sub
  | EmptyString => false
  end.
Proof. by destruct s. Qed.

(** [strings.Contains(s, sub)] holds when [sub] occurs somewhere in [s]. *)
Lemma strings_Contains_spec (s sub : string) :
  Manager.strings_Contains s sub = true ↔ ∃ a b, s = a +:+ sub +:+ b.
Proof.
  induction s as [|c s IH]; rewrite strings_Contains_unfold, orb_true_iff, HasPrefix_spec.
  - split.
    + intros [[b Hb]|?]; [|done]. by exists "", b.
    + intros (a & b & Hab). destruct a; [|done]. left. by exists b.
  - rewrite IH. split.
    + intros [[b Hb]|(a & b & Hab)]; [by exists "", b|].
      exists (String c a), b. by rewrite string_app_cons, Hab.
    + intros (a & b & Hab). destruct a as [|c' a]; [left; by exists b|].
      right. exists a, b. rewrite string_app_cons in Hab. by injection Hab.
Qed.

(** X15. [installDebugger] runs which go, then go install, then the check
    for dlv, and stops at the first that fails: without Go in the
    container nothing is installed. It returns no error exactly when the
    three commands succeed and the output of the check does not hold the
    words not found. *)
Theorem installDebugger_steps `{!System}
    (m : Manager.t) (name : string) (h : list (list string)) :
  let h1 := h ++ [which_go name] in
  let h2 := h1 ++ [install_dlv name] in
  let h3 := h2 ++ [verify_dlv name] in
  let check := run_command h (which_go name) in
  let install := run_command h1 (install_dlv name) in
  let verify := run_command h2 (verify_dlv name) in
  (∀ err, Exec.Err check = Some err →
     Manager.installDebugger m name h =
       (Some (Manager.errorf ("Go is not installed in container '" +:+ name +:+
                              "', cannot install debugger")), h1))
  ∧ (∀ err, Exec.Err check = None → Exec.Err install = Some err →
     Manager.installDebugger m name h =
       (Some (Manager.Errorf "failed to install delve: " (Manager.ofError err) ""), h2))
  ∧ (∀ err, Exec.Err check = None → Exec.Err install = None → Exec.Err verify = Some err →
     Manager.installDebugger m name h =
       (Some (Manager.Errorf "failed to verify delve installation: "
                (Manager.ofError err) ""), h3))
  ∧ (Exec.Err check = None → Exec.Err install = None → Exec.Err verify = None →
     (∃ a b, Exec.Stdout verify = a +:+ "not found" +:+ b) →
     Manager.installDebugger m name h =
       (Some (Manager.errorf "delve installed but not found in PATH"), h3))
  ∧ ((Manager.installDebugger m name h).1 = None ↔
     Exec.Err check = None ∧ Exec.Err install = None ∧ Exec.Err verify = None
     ∧ ¬ ∃ a b, Exec.Stdout verify = a +:+ "not found" +:+ b)
  ∧ ((Manager.installDebugger m name h).1 = None → (Manager.installDebugger m name h).2 = h3).
Proof.
  cbv zeta. unfold Manager.installDebugger, Manager.bind, Manager.Run, Manager.ret.
  fold (which_go name) (install_dlv name) (verify_dlv name).
  destruct (Exec.Err (run_command h (which_go name))) as [e1|]; cbv beta.
  { split; [done|]. repeat (split; [done|]). split; [|done]. split; [done | by intros [? _]]. }
  destruct (Exec.Err (run_command (h ++ [which_go name]) (install_dlv name))) as [e2|];
    cbv beta.
  { split; [done|]. split; [by intros err _ [= ->]|]. repeat (split; [done|]).
    split; [|done]. split; [done | by intros (_ & ? & _)]. }
  destruct (Exec.Err (run_command ((h ++ [which_go name]) ++ [install_dlv name])
                        (verify_dlv name))) as [e3|]; cbv beta.
  { split; [done|]. split; [done|]. split; [by intros err _ _ [= ->]|]. split; [done|].
    split; [|done]. split; [done | by intros (_ & _ & ? & _)]. }
  pose proof (strings_Contains_spec
    (Exec.Stdout (run_command ((h ++ [which_go name]) ++ [install_dlv name])
                    (verify_dlv name))) "not found") as Hfound.
  destruct (Manager.strings_Contains _ "not found"); cbv beta.
  - split; [done|]. split; [done|]. split; [done|]. split; [done|]. split; [|done].
    split; [done|]. intros (_ & _ & _ & Hnot). destruct Hnot. by apply Hfound.
  - split; [done|]. split; [done|]. split; [done|].
    split; [intros _ _ _ Hex; by apply Hfound in Hex|].
    split; [|done]. split; [|done]. intros _. repeat (split; [done|]).
    intros Hex. by apply Hfound in Hex.
Qed.

Lemma installDebugger_without_go :
  @Manager.installDebugger exec_failing_system app_manager "app-dev" [] =
  (Some (Manager.errorf "Go is not installed in container 'app-dev', cannot install debugger"),
   [["docker"; "exec"; "app-dev"; "which"; "go"]]).
Proof. by vm_compute. Qed.
